(** * notion-github-action: issue → ledger synchronisation

    A shallow embedding of [src/action.ts] and [src/sync.ts] and the
    properties their specification states about them.

    Conventions of the embedding:
    - a JavaScript string is the list of its UTF-16 code units ([list N]);
      [String.prototype.length], [substring] and the regular expressions
      of the source (none has the [u] flag) all work on code units;
    - JavaScript numbers that carry issue numbers and ids are [Z];
    - an [async] function is a computation in the monad [M]: it threads the
      state of the outside world (the two remote services), records the
      log lines and remote requests it issues, and ends in a returned value,
      a thrown error, or is still pending when the fuel of a loop ran out;
    - [Promise.all] / [Promise.allSettled] over [xs.map(f)] start every task
      in list order.  The embedding lists the events of each task in one
      piece, task after task in that order, threads the world through them
      the same way, and keeps the settle-all / fail-fast result rule.  How
      the events of different tasks interleave in time is not part of the
      embedding: the properties speak of each task's own events and of
      what follows once all tasks have settled. *)

From Stdlib Require Import ZArith NArith List Bool Lia String Ascii.
From stdpp Require Import base option list gmap.
Import ListNotations.

Local Open Scope N_scope.

(** ** Strings as code-unit lists *)

Abbreviation jsstring := (list N).

Definition lit (s : string) : jsstring :=
  List.map N_of_ascii (list_ascii_of_string s).

Module Ch.
Definition tab := 9.
Definition lf := 10.
Definition space := 32.
Definition bang := 33.
Definition hash := 35.
Definition lparen := 40.
Definition rparen := 41.
Definition star := 42.
Definition dash := 45.
Definition slash := 47.
Definition lt := 60.
Definition gt := 62.
Definition lbracket := 91.
Definition rbracket := 93.
End Ch.

(** ECMAScript [LineTerminator]: LF, CR, U+2028, U+2029.  [.] matches
    everything else; [^] and [$] under the [m] flag look for these. *)
Definition is_line_terminator (c : N) : bool :=
  (c =? 10) || (c =? 13) || (c =? 8232) || (c =? 8233).

(** ECMAScript [\s] (and the set [trim] strips): WhiteSpace and
    LineTerminator. *)
Definition is_space (c : N) : bool :=
  ((9 <=? c) && (c <=? 13)) || (c =? 32) || (c =? 160) || (c =? 5760)
  || ((8192 <=? c) && (c <=? 8202)) || (c =? 8232) || (c =? 8233)
  || (c =? 8239) || (c =? 8287) || (c =? 12288) || (c =? 65279).

Section Scanning.
Context {A : Type}.

Fixpoint take_while (p : A -> bool) (s : list A) : list A :=
  match s with
  | c :: tl => if p c then c :: take_while p tl else []
  | [] => []
  end.

Fixpoint drop_while (p : A -> bool) (s : list A) : list A :=
  match s with
  | c :: tl => if p c then drop_while p tl else s
  | [] => []
  end.

(** Index of the first element satisfying [p]. *)
Fixpoint index_where (p : A -> bool) (s : list A) : option nat :=
  match s with
  | c :: tl => if p c then Some O else option_map S (index_where p tl)
  | [] => None
  end.

(** Index of the last element satisfying [p]. *)
Fixpoint last_index_where (p : A -> bool) (s : list A) : option nat :=
  match s with
  | c :: tl =>
      match last_index_where p tl with
      | Some i => Some (S i)
      | None => if p c then Some O else None
      end
  | [] => None
  end.
End Scanning.

Fixpoint is_prefix (p s : jsstring) : bool :=
  match p, s with
  | [], _ => true
  | a :: p', b :: s' => (a =? b) && is_prefix p' s'
  | _ :: _, [] => false
  end.

(** Index of the first occurrence of [p] in [s]. *)
Fixpoint index_of_sub (p s : jsstring) : option nat :=
  if is_prefix p s then Some O
  else match s with
       | _ :: tl => option_map S (index_of_sub p tl)
       | [] => None
       end.

(** ** [String.prototype.replace] with a global regular expression

    A [matcher] is one regular expression tried at one scan position: it
    sees the code unit before the position (for [^]) and the text from the
    position on, and answers with the length of the match and the expanded
    replacement text.  [replace_from] is the scan of [replace]: where the
    expression matches, the replacement is emitted and the scan resumes
    after the match; elsewhere the code unit is copied.  [skip] counts the
    code units of a match still to be passed over.  No expression of this
    program matches the empty string. *)
Definition matcher := option N -> jsstring -> option (nat * jsstring).

Fixpoint replace_from (m : matcher) (skip : nat) (prev : option N)
    (s : jsstring) : jsstring :=
  match s with
  | [] => []
  | c :: tl =>
      match skip with
      | S k => replace_from m k (Some c) tl
      | O =>
          match m prev s with
          | Some (S n, rep) => rep ++ replace_from m n (Some c) tl
          | _ => c :: replace_from m O (Some c) tl
          end
      end
  end.

Definition replace_all (m : matcher) (s : jsstring) : jsstring :=
  replace_from m O None s.

(** [/<[^>]+>/]: [<], one or more code units other than [>], then [>]. *)
Definition re_tag : matcher := fun _ s =>
  match s with
  | open :: c :: tl =>
      if (open =? Ch.lt) && negb (c =? Ch.gt) then
        match index_where (N.eqb Ch.gt) tl with
        | Some i => Some (i + 3, [])%nat
        | None => None
        end
      else None
  | _ => None
  end.

(** [/\n\s*\n/], replaced by one line feed: [\s*] is greedy and gives
    back until it stands before a line feed, so the match ends at the
    last line feed of the white-space run after the first one. *)
Definition re_blank_lines : matcher := fun _ s =>
  match s with
  | c :: tl =>
      if c =? Ch.lf then
        match last_index_where (N.eqb Ch.lf) (take_while is_space tl) with
        | Some i => Some (i + 2, [Ch.lf])%nat
        | None => None
        end
      else None
  | [] => None
  end.

(** [String.prototype.trim]. *)
Definition trim (s : jsstring) : jsstring :=
  rev (drop_while is_space (rev (drop_while is_space s))).

(** [removeHTML] (action.ts 12-19); [None] is an absent ([undefined] or
    [null]) argument, falsy like the empty string. *)
Definition removeHTML (text : option jsstring) : jsstring :=
  match text with
  | None | Some [] => []
  | Some text => trim (replace_all re_blank_lines (replace_all re_tag text))
  end.

(** [/<!--[\s\S]*?-->/]: lazy, so up to the first [-->]. *)
Definition re_comment : matcher := fun _ s =>
  if is_prefix (lit "<!--") s then
    match index_of_sub (lit "-->") (skipn 4 s) with
    | Some i => Some (i + 7, [])%nat
    | None => None
    end
  else None.

Definition at_line_start (prev : option N) : bool :=
  match prev with
  | None => true
  | Some c => is_line_terminator c
  end.

(** Where [(.+)] starts in [/^#+\s+(.+)$/m], counted in the text after
    the [#] run: [\s+] first takes the whole white-space run of length
    [n] and gives back one code unit at a time, keeping at least one,
    until the next code unit exists and is not a line terminator. *)
Fixpoint heading_text_start (n : nat) (rest : jsstring) : option nat :=
  match n with
  | O => None
  | S n' =>
      match nth_error rest n with
      | Some c =>
          if is_line_terminator c then heading_text_start n' rest
          else Some n
      | None => heading_text_start n' rest
      end
  end.

(** [/^#+\s+(.+)$/m] with the replacement [**$1**]: at a line start, a
    run of [#], white space, then the rest of the line as group 1. *)
Definition re_heading : matcher := fun prev s =>
  if at_line_start prev then
    let hashes := take_while (N.eqb Ch.hash) s in
    match hashes with
    | [] => None
    | _ :: _ =>
        let rest := skipn (List.length hashes) s in
        let ws := take_while is_space rest in
        match heading_text_start (List.length ws) rest with
        | Some l =>
            let g1 := take_while (fun c => negb (is_line_terminator c))
                                 (skipn l rest) in
            Some (List.length hashes + l + List.length g1,
                  [Ch.star; Ch.star] ++ g1 ++ [Ch.star; Ch.star])%nat
        | None => None
        end
    end
  else None.

(** The image expression of [preprocessMarkdown] with the replacement
    [$1 (image)]: an exclamation mark and an opening bracket, group 1 up
    to the first closing bracket, an opening parenthesis right after it,
    and everything up to the first closing parenthesis. *)
Definition re_image : matcher := fun _ s =>
  if is_prefix (lit "![") s then
    let tl := skipn 2 s in
    match index_where (N.eqb Ch.rbracket) tl with
    | Some i =>
        if is_prefix [Ch.lparen] (skipn (S i) tl) then
          match index_where (N.eqb Ch.rparen) (skipn (S (S i)) tl) with
          | Some j => Some (i + j + 5, firstn i tl ++ lit " (image)")%nat
          | None => None
          end
        else None
    | None => None
    end
  else None.

(** [preprocessMarkdown] (action.ts 21-32). *)
Definition preprocessMarkdown (text : jsstring) : jsstring :=
  let text := replace_all re_comment text in
  let text := replace_all re_heading text in
  let text := replace_all re_image text in
  text.

(** [String.prototype.split] on a one-code-unit separator. *)
Fixpoint split_on (sep : N) (s : jsstring) : list jsstring :=
  match s with
  | [] => [[]]
  | c :: tl =>
      if c =? sep then [] :: split_on sep tl
      else match split_on sep tl with
           | seg :: segs => (c :: seg) :: segs
           | [] => [[c]]
           end
  end.

(** A value interpolated into a template literal or passed to [String]:
    an absent one prints as [undefined]. *)
Definition interpolate (o : option jsstring) : jsstring :=
  match o with
  | Some s => s
  | None => lit "undefined"
  end.

(** [x || ''] on an optional string. *)
Definition or_empty (o : option jsstring) : jsstring :=
  match o with
  | Some s => s
  | None => []
  end.

(** ** Errors, log lines and outcomes *)

Inductive JsError :=
  | ExternalError (detail : jsstring)
      (** thrown by a collaborator: a remote call or a library *)
  | TypeErrorUndefined (reading : string)
      (** the runtime's "Cannot read properties of undefined" *)
  | ErrDatabaseIdNotConfigured
      (** [new Error('Notion database ID is not configured. ...')] *)
  | ErrNoRepositoryName
      (** [new Error('Unable to find repository name in github webhook context')] *)
  | ErrCreatePagesFailed (first_reason : JsError)
      (** [new Error(`Failed to create pages in Notion: ${String(reason)}`)] *).

Inductive LogLevel := LDebug | LInfo | LWarning | LError.

(** The values a log template interpolates. *)
Inductive LogArg :=
  | AInt (z : Z)
  | ACount (n : nat)
  | AStr (s : jsstring)
  | AErr (e : JsError).

Inductive outcome (A : Type) :=
  | Returned (a : A)
  | Thrown (e : JsError)
  | Pending.
Arguments Returned {A} a.
Arguments Thrown {A} e.
Arguments Pending {A}.

(** ** Rich text, blocks and property values *)

Inductive Color := ColorDefault | ColorNamed (name : jsstring).

Record Annotations := {
  bold : bool;
  strikethrough : bool;
  underline : bool;
  italic : bool;
  code : bool;
  color : Color
}.

Inductive RichTextItem :=
  | RText (content : jsstring) (link : option jsstring) (annotations : Annotations)
  | REquation (expression : jsstring) (annotations : Annotations).

Inductive Block :=
  | Paragraph (text : list RichTextItem).

Inductive IssueState := StateOpen | StateClosed.

(** Modelled from the spec: the module [./properties] (the constructors
    [properties.title], [text], [richText], [number], [url], [date],
    [multiSelect] and [getStatusSelectOption]) is not among the sources;
    each constructor is a tag around its argument, as the data model's
    tagged union of property values has it. *)
Inductive PropertyValue :=
  | P_title (text : jsstring)
  | P_text (text : option jsstring)
  | P_richText (text : list RichTextItem)
  | P_number (n : Z)
  | P_url (url : jsstring)
  | P_date (time : jsstring)
  | P_multiSelect (names : list jsstring)
  | P_statusSelectOption (state : option IssueState).

(** [CustomValueMap]: an object literal, its keys in source order. *)
Abbreviation CustomValueMap := (list (string * PropertyValue)).

(** ** The two services' data *)

Record Issue := {
  number : Z;
  id : Z;
  title : jsstring;
  state : option IssueState;
  body : option jsstring;
  assignees : list jsstring;          (** the [login] of each assignee *)
  labels : option (list jsstring);    (** the [name] of each label *)
  milestone : option jsstring;        (** its [title] *)
  created_at : jsstring;
  updated_at : jsstring;
  repository_url : jsstring;
  user : option jsstring;             (** its [login] *)
  html_url : jsstring;
  pull_request : bool                 (** is the key present and truthy *)
}.

Record WebhookPayload := {
  action : option jsstring;
  issue : option Issue;
  repository : option (option jsstring)   (** [repository?.full_name] *)
}.

(** What [.number] reads off a ledger property: a number property holds a
    number or [null]; any other property has no such field. *)
Inductive PageProperty :=
  | NumberProperty (value : option Z)
  | OtherProperty (type : jsstring).

(** A query result: a full page carries [properties], a partial one does
    not. *)
Record PageObject := {
  page_id : jsstring;
  page_properties : option (gmap (list N) PageProperty)
}.

Record QueryDatabaseResponse := {
  results : list PageObject;
  next_cursor : option jsstring
}.

Record BlockObject := { block_id : jsstring }.

Inductive QueryFilter :=
  | FilterIDEquals (n : Z).

Record QueryArgs := {
  q_database_id : jsstring;
  q_filter : option QueryFilter;
  q_start_cursor : option jsstring;
  q_page_size : option nat
}.

Record ProjectData := {
  name : option jsstring;
  columnName : option jsstring
}.

(** The parameters [getGitHubIssues] gives to the page iterator of
    [octokit.rest.issues.listForRepo] (sync.ts 381-386). *)
Record ListForRepoParams := {
  l_owner : option jsstring;
  l_repo : option jsstring;
  l_state : jsstring;
  l_per_page : nat
}.

(** The remote requests the program issues. *)
Inductive Request :=
  | DatabasesQuery (args : QueryArgs)
  | PagesCreate (database_id : jsstring) (properties : CustomValueMap)
      (children : option (list Block))
  | PagesUpdate (page : jsstring) (properties : CustomValueMap)
  | BlocksChildrenList (page : jsstring)
  | BlocksUpdate (block : jsstring) (content : Block)
  | BlocksChildrenAppend (page : jsstring) (children : list Block)
  | BlocksDelete (block : jsstring)
  | IssuesListForRepo (params : ListForRepoParams)
  | GetProjectData (githubRepo : jsstring) (issueNumber : Z).

Inductive Event :=
  | Log (level : LogLevel) (template : string) (args : list LogArg)
  | Call (request : Request).

(** ** The monad of asynchronous computations *)

Record Run (W A : Type) := MkRun {
  trace : list Event;
  result : outcome A;
  final : W
}.
Arguments MkRun {W A} trace result final.
Arguments trace {W A} r.
Arguments result {W A} r.
Arguments final {W A} r.

Definition M (W A : Type) : Type := W -> Run W A.

(** What a settled promise looks like to [Promise.allSettled]. *)
Inductive Settled (A : Type) :=
  | Fulfilled (value : A)
  | Rejected (reason : JsError).
Arguments Fulfilled {A} value.
Arguments Rejected {A} reason.

Section Monad.
Context {W : Type}.

Definition ret {A} (a : A) : M W A :=
  fun w => MkRun [] (Returned a) w.

Definition throw {A} (e : JsError) : M W A :=
  fun w => MkRun [] (Thrown e) w.

Definition pending {A} : M W A :=
  fun w => MkRun [] Pending w.

Definition bind {A B} (m : M W A) (k : A -> M W B) : M W B :=
  fun w =>
    match m w with
    | MkRun tr (Returned a) w1 =>
        match k a w1 with
        | MkRun tr' o w2 => MkRun (tr ++ tr') o w2
        end
    | MkRun tr (Thrown e) w1 => MkRun tr (Thrown e) w1
    | MkRun tr Pending w1 => MkRun tr Pending w1
    end.

(** [try { m } catch (error) { h error }]. *)
Definition try_catch {A} (m : M W A) (h : JsError -> M W A) : M W A :=
  fun w =>
    match m w with
    | MkRun tr (Thrown e) w1 =>
        match h e w1 with
        | MkRun tr' o w2 => MkRun (tr ++ tr') o w2
        end
    | r => r
    end.

Definition log (level : LogLevel) (template : string) (args : list LogArg)
  : M W unit :=
  fun w => MkRun [Log level template args] (Returned tt) w.

(** A remote call: the request is recorded, the world answers. *)
Definition settled {A} (answer : JsError + A) : outcome A :=
  match answer with
  | inr a => Returned a
  | inl e => Thrown e
  end.

Definition call {A} (request : Request) (answer : W -> (JsError + A) * W)
  : M W A :=
  fun w => let '(o, w') := answer w in MkRun [Call request] (settled o) w'.

(** All tasks of [xs.map(f)] are started, in list order, whatever the
    others do; the embedding runs each to its end in that order. *)
Fixpoint run_all {A} (tasks : list (M W A)) (w : W)
  : list Event * list (outcome A) * W :=
  match tasks with
  | [] => ([], [], w)
  | t :: ts =>
      match t w with
      | MkRun tr1 o w1 =>
          let '(tr, os, w') := run_all ts w1 in
          (tr1 ++ tr, o :: os, w')
      end
  end.

(** [await Promise.allSettled(tasks)]: fulfilled once every task has
    settled, with one entry per task, in task order. *)
Fixpoint settle_all {A} (os : list (outcome A)) : outcome (list (Settled A)) :=
  match os with
  | [] => Returned []
  | o :: os' =>
      match o, settle_all os' with
      | Returned a, Returned l => Returned (Fulfilled a :: l)
      | Thrown e, Returned l => Returned (Rejected e :: l)
      | Pending, _ => Pending
      | _, Pending => Pending
      | _, Thrown e => Thrown e
      end
  end.

Definition promise_allSettled {A} (tasks : list (M W A))
  : M W (list (Settled A)) :=
  fun w => let '(tr, os, w') := run_all tasks w in MkRun tr (settle_all os) w'.

(** [await Promise.all(tasks)]: rejected with the first rejection,
    fulfilled with all values otherwise. *)
Fixpoint first_rejection {A} (os : list (outcome A)) : outcome (list A) :=
  match os with
  | [] => Returned []
  | Thrown e :: _ => Thrown e
  | Returned a :: os' =>
      match first_rejection os' with
      | Returned l => Returned (a :: l)
      | other => other
      end
  | Pending :: os' =>
      match first_rejection os' with
      | Thrown e => Thrown e
      | _ => Pending
      end
  end.

Definition promise_all {A} (tasks : list (M W A)) : M W (list A) :=
  fun w => let '(tr, os, w') := run_all tasks w in MkRun tr (first_rejection os) w'.
End Monad.

#[global] Instance M_ret {W} : MRet (M W) := @ret W.
#[global] Instance M_bind {W} : MBind (M W) := fun A B k m => bind m k.

(** ** The collaborators

    [W] is the state of everything outside the program.  Each remote
    operation answers from the current state and moves it on; nothing is
    assumed about how, except that every request settles: it is answered
    ([inr]) or fails ([inl]).

    Modelled from the spec: [getProjectData], imported by [sync.ts] from
    [./action], is not among the sources; the specification describes it
    as one more network lookup per issue, which may fail, for the optional
    project linkage (name and column). *)
Record Env (W : Type) := {
  databases_query : QueryArgs -> W -> (JsError + QueryDatabaseResponse) * W;
  pages_create :
    jsstring -> CustomValueMap -> option (list Block) -> W -> (JsError + unit) * W;
  pages_update : jsstring -> CustomValueMap -> W -> (JsError + unit) * W;
  blocks_children_list : jsstring -> W -> (JsError + list BlockObject) * W;
  blocks_update : jsstring -> Block -> W -> (JsError + unit) * W;
  blocks_children_append : jsstring -> list Block -> W -> (JsError + unit) * W;
  blocks_delete : jsstring -> W -> (JsError + unit) * W;
  (** what the page iterator of [octokit.rest.issues.listForRepo] yields
      next for the given parameters, and whether it yields again; where
      the iterator stands is part of the world *)
  issues_listForRepo :
    ListForRepoParams -> W -> (JsError + list Issue * bool) * W;
  getProjectData : jsstring -> Z -> W -> (JsError + option ProjectData) * W
}.
Arguments databases_query {W} e.
Arguments pages_create {W} e.
Arguments pages_update {W} e.
Arguments blocks_children_list {W} e.
Arguments blocks_update {W} e.
Arguments blocks_children_append {W} e.
Arguments blocks_delete {W} e.
Arguments issues_listForRepo {W} e.
Arguments getProjectData {W} e.

(** The markup library ([markdownToRichText] of [@tryfabric/martian]): a
    function of its argument that returns spans ([inr]) or throws
    ([inl]). *)
Definition Parser := jsstring -> JsError + list RichTextItem.

Definition plain_annotations : Annotations :=
  {| bold := false; strikethrough := false; underline := false;
     italic := false; code := false; color := ColorDefault |}.

(** The content-block plan of the edited handler (action.ts 162-184):
    the three argument lists of its update, append and delete requests. *)
Record BlockPlan := {
  toUpdate : list (jsstring * Block);
  toAppend : list Block;
  toDelete : list jsstring
}.

(** [bodyBlocks.slice(0, overlap).map((block, index) => ...)] reads
    [existingBlocks[index].id]. *)
Fixpoint pair_by_index (blocks : list Block) (existing : list BlockObject)
  : list (jsstring * Block) :=
  match blocks, existing with
  | b :: bs, e :: es => (block_id e, b) :: pair_by_index bs es
  | _, _ => []
  end.

Definition blockPlan (bodyBlocks : list Block) (existingBlocks : list BlockObject)
  : BlockPlan :=
  let overlap := Nat.min (List.length bodyBlocks) (List.length existingBlocks) in
  {| toUpdate := pair_by_index (firstn overlap bodyBlocks) existingBlocks;
     toAppend :=
       if (List.length existingBlocks <? List.length bodyBlocks)%nat
       then skipn overlap bodyBlocks else [];
     toDelete :=
       if (List.length existingBlocks <? List.length bodyBlocks)%nat then []
       else if (List.length bodyBlocks <? List.length existingBlocks)%nat
       then List.map block_id (skipn overlap existingBlocks) else [] |}.

(** [issuePageIds.has(n)] on the [Map] from issue number to page id.  A
    key is a number or, when the ledger held [null], [None]. *)
Definition map_has (issuePageIds : gmap (option Z) jsstring) (n : Z) : bool :=
  match issuePageIds !! Some n with
  | Some _ => true
  | None => false
  end.

(** [getIssuesNotInNotion] (sync.ts 397-405). *)
Fixpoint getIssuesNotInNotion (issuePageIds : gmap (option Z) jsstring)
    (issues : list Issue) : list Issue :=
  match issues with
  | [] => []
  | issue :: rest =>
      if negb (map_has issuePageIds (number issue))
      then issue :: getIssuesNotInNotion issuePageIds rest
      else getIssuesNotInNotion issuePageIds rest
  end.

(** [createMultiSelectObjects] (sync.ts 453-460). *)
Definition createMultiSelectObjects (issue : Issue)
  : list jsstring * option (list jsstring) :=
  (assignees issue, labels issue).

(** [PageIdAndIssueNumber]; [issueNumber] is whatever passed the
    [typeof num !== 'undefined'] test: a number or [null]. *)
Record PageIdAndIssueNumber := {
  pageId : jsstring;
  issueNumber : option Z
}.

(** The body of [pages.forEach] in [getIssuesAlreadyInNotion]
    (sync.ts 355-365) for one page: the entry it pushes, if any, or the
    error of reading [.number] off a missing property. *)
Definition page_entry (page : PageObject)
  : outcome (option PageIdAndIssueNumber) :=
  match page_properties page with
  | None => Returned None
  | Some props =>
      match props !! lit "Number" with
      | None => Thrown (TypeErrorUndefined "number")
      | Some (NumberProperty num) =>
          Returned (Some {| pageId := page_id page; issueNumber := num |})
      | Some (OtherProperty _) => Returned None
      end
  end.

Fixpoint page_entries (pages : list PageObject)
  : outcome (list PageIdAndIssueNumber) :=
  match pages with
  | [] => Returned []
  | page :: rest =>
      match page_entry page with
      | Thrown e => Thrown e
      | Pending => Pending
      | Returned o =>
          match page_entries rest with
          | Returned res =>
              Returned (match o with Some e => e :: res | None => res end)
          | other => other
          end
      end
  end.

(** The [for ... of] loop of [createIssueMapping]: one [Map.set] per
    entry, later entries overwriting earlier ones with the same key. *)
Definition set_all (entries : list PageIdAndIssueNumber)
  : gmap (option Z) jsstring :=
  fold_left (fun m e => <[issueNumber e := pageId e]> m) entries ∅.

Definition truthy (s : option jsstring) : bool :=
  match s with
  | Some (_ :: _) => true
  | _ => false
  end.

Definition lift {W A} (o : outcome A) : M W A :=
  fun w => MkRun [] o w.

Record Options := {
  notion_token : jsstring;
  notion_databaseId : option jsstring;
  github_payload : WebhookPayload;
  github_eventName : jsstring;
  github_token : jsstring
}.

(** ** The program *)

Section Program.
Context {W : Type} (markdownToRichText : Parser) (env : Env W).

(** [parseBodyRichText] (action.ts 52-81). *)
Definition parseBodyRichText (body : option jsstring)
  : M W (list RichTextItem) :=
  try_catch
    (let cleanBody := removeHTML body in
     let processedBody := preprocessMarkdown cleanBody in
     match markdownToRichText processedBody with
     | inr spans => ret spans
     | inl error => throw error
     end)
    (fun error =>
       log LWarning "Failed to parse markdown: {}" [AErr error];;
       let cleanBody := removeHTML body in
       if (0 <? List.length cleanBody)%nat
       then ret [RText (firstn 2000 cleanBody) None plain_annotations]
       else ret []).

(** [getBodyChildrenBlocks] (action.ts 83-93). *)
Definition getBodyChildrenBlocks (body : option jsstring)
  : M W (list Block) :=
  text ← parseBodyRichText body;
  ret [Paragraph text].

(** [parsePropertiesFromPayload] (action.ts 37-50), on [payload.issue]. *)
Definition parsePropertiesFromPayload (issue : Issue) : M W CustomValueMap :=
  bodyText ← parseBodyRichText (body issue);
  ret [ ("Name", P_title (title issue));
        ("Status", P_statusSelectOption (state issue));
        ("Body", P_richText bodyText);
        ("Assignees", P_multiSelect (assignees issue));
        ("Reviewer", P_multiSelect []);
        ("Link", P_url (html_url issue)) ]%string.

(** Reading a field of [payload.issue] when the payload has no issue. *)
Definition payload_issue (payload : WebhookPayload) (field : string)
  : M W Issue :=
  match issue payload with
  | Some i => ret i
  | None => throw (TypeErrorUndefined field)
  end.

(** [handleIssueOpened] (action.ts 103-117). *)
Definition handleIssueOpened (databaseId : jsstring)
    (payload : WebhookPayload) : M W unit :=
  issue ← payload_issue payload "number";
  log LInfo "Creating page for issue #{}" [AInt (number issue)];;
  props ← parsePropertiesFromPayload issue;
  children ← getBodyChildrenBlocks (body issue);
  call (PagesCreate databaseId props (Some children))
       (pages_create env databaseId props (Some children)).

(** [handleIssueEdited] (action.ts 127-208). *)
Definition handleIssueEdited (databaseId : jsstring)
    (payload : WebhookPayload) : M W unit :=
  issue ← payload_issue payload "id";
  log LInfo "Querying database for page with github id {}" [AInt (id issue)];;
  let args := {| q_database_id := databaseId;
                 q_filter := Some (FilterIDEquals (id issue));
                 q_start_cursor := None;
                 q_page_size := Some 1%nat |} in
  query ← call (DatabasesQuery args) (databases_query env args);
  bodyBlocks ← getBodyChildrenBlocks (body issue);
  match results query with
  | first :: _ =>
      let pageId := page_id first in
      log LInfo "Query successful: Page {}" [AStr pageId];;
      log LInfo "Updating page for issue #{}" [AInt (number issue)];;
      props ← parsePropertiesFromPayload issue;
      call (PagesUpdate pageId props) (pages_update env pageId props);;
      existingBlocks ← call (BlocksChildrenList pageId)
                            (blocks_children_list env pageId);
      let plan := blockPlan bodyBlocks existingBlocks in
      promise_all
        (List.map (fun '(block, content) =>
                     call (BlocksUpdate block content)
                          (blocks_update env block content))
                  (toUpdate plan));;
      if (List.length existingBlocks <? List.length bodyBlocks)%nat then
        call (BlocksChildrenAppend pageId (toAppend plan))
             (blocks_children_append env pageId (toAppend plan))
      else if (List.length bodyBlocks <? List.length existingBlocks)%nat then
        promise_all
          (List.map (fun block =>
                       call (BlocksDelete block) (blocks_delete env block))
                    (toDelete plan));;
        ret tt
      else ret tt
  | [] =>
      log LWarning "Could not find page with github id {}, creating a new one"
          [AInt (id issue)];;
      props ← parsePropertiesFromPayload issue;
      call (PagesCreate databaseId props (Some bodyBlocks))
           (pages_create env databaseId props (Some bodyBlocks))
  end;;
  (* action.ts 197: [query.results[0].id] once more, outside the branch *)
  pageId ← match results query with
           | first :: _ => ret (page_id first)
           | [] => throw (TypeErrorUndefined "id")
           end;
  log LInfo "Query successful: Page {}" [AStr pageId];;
  log LInfo "Updating page for issue #{}" [AInt (number issue)];;
  props ← parsePropertiesFromPayload issue;
  call (PagesUpdate pageId props) (pages_update env pageId props).

(** The [while (next_cursor)] loop of [getIssuesAlreadyInNotion]
    (sync.ts 336-351); [fuel] bounds the number of requests. *)
Fixpoint query_pages (fuel : nat) (databaseId : jsstring)
    (cursor : option jsstring) (pages : list PageObject)
  : M W (list PageObject) :=
  match fuel with
  | O => pending
  | S fuel' =>
      let args := {| q_database_id := databaseId; q_filter := None;
                     q_start_cursor := cursor; q_page_size := None |} in
      response ← call (DatabasesQuery args) (databases_query env args);
      let pages := pages ++ results response in
      if truthy (next_cursor response)
      then query_pages fuel' databaseId (next_cursor response) pages
      else ret pages
  end.

(** [getIssuesAlreadyInNotion] (sync.ts 330-375). *)
Definition getIssuesAlreadyInNotion (fuel : nat) (databaseId : jsstring)
  : M W (list PageIdAndIssueNumber) :=
  log LInfo "Checking for issues already in the database..." [];;
  try_catch
    (pages ← query_pages fuel databaseId None [];
     res ← lift (page_entries pages);
     log LInfo "Found {} issues already in Notion database"
         [ACount (List.length res)];;
     ret res)
    (fun error =>
       log LError "Failed to query Notion database: {}" [AErr error];;
       log LError "Database ID: {}" [AStr databaseId];;
       throw error).

(** [createIssueMapping] (sync.ts 290-303). *)
Definition createIssueMapping (fuel : nat) (databaseId : jsstring)
  : M W (gmap (option Z) jsstring) :=
  issuesAlreadyInNotion ← getIssuesAlreadyInNotion fuel databaseId;
  ret (set_all issuesAlreadyInNotion).

(** The [for await] loop of [getGitHubIssues] over the page iterator. *)
Fixpoint list_pages (fuel : nat) (params : ListForRepoParams)
    (issues : list Issue) : M W (list Issue) :=
  match fuel with
  | O => pending
  | S fuel' =>
      '(data, more) ← call (IssuesListForRepo params)
                           (issues_listForRepo env params);
      let issues :=
        issues ++ List.filter (fun i => negb (pull_request i)) data in
      if more : bool then list_pages fuel' params issues
      else ret issues
  end.

(** [getGitHubIssues] (sync.ts 378-395). *)
Definition getGitHubIssues (fuel : nat) (githubRepo : jsstring)
  : M W (list Issue) :=
  log LInfo "Finding Github Issues..." [];;
  let parts := split_on Ch.slash githubRepo in
  list_pages fuel
    {| l_owner := nth_error parts 0; l_repo := nth_error parts 1;
       l_state := lit "all"; l_per_page := 100 |} [].

(** [getPropertiesFromIssue] (sync.ts 462-513). *)
Definition getPropertiesFromIssue (issue : Issue) : M W CustomValueMap :=
  try_catch
    (let author := user issue in
     let '(assigneesObject, labelsObject) := createMultiSelectObjects issue in
     let urlComponents := split_on Ch.slash (repository_url issue) in
     let n := List.length urlComponents in
     let org := if (2 <=? n)%nat then nth_error urlComponents (n - 2) else None in
     let repo := if (1 <=? n)%nat then nth_error urlComponents (n - 1) else None in
     let githubRepo := interpolate org ++ [Ch.slash] ++ interpolate repo in
     projectData ← call (GetProjectData githubRepo (number issue))
                        (getProjectData env githubRepo (number issue));
     bodyText ← parseBodyRichText (Some (or_empty (body issue)));
     ret [ ("Name", P_title (title issue));
           ("Status", P_statusSelectOption (state issue));
           ("Organization", P_text org);
           ("Repository", P_text repo);
           ("Body", P_richText bodyText);
           ("Number", P_number (number issue));
           ("Assignees", P_multiSelect assigneesObject);
           ("Milestone", P_text (Some (or_empty (milestone issue))));
           ("Labels", P_multiSelect (default [] labelsObject));
           ("Author", P_text author);
           ("Created", P_date (created_at issue));
           ("Updated", P_date (updated_at issue));
           ("ID", P_number (id issue));
           ("Link", P_url (html_url issue));
           ("Project", P_text (Some (or_empty (projectData ≫= name))));
           ("Project Column",
             P_text (Some (or_empty (projectData ≫= columnName)))) ]%string)
    (fun error =>
       log LError "Failed to extract properties from issue #{}: {}"
           [AInt (number issue); AErr error];;
       throw error).

(** The task [createPages] starts for one issue (sync.ts 423-436). *)
Definition createPage (databaseId : jsstring) (issue : Issue) : M W unit :=
  try_catch
    (log LDebug "Creating page for issue #{}: {}"
         [AInt (number issue); AStr (title issue)];;
     props ← getPropertiesFromIssue issue;
     call (PagesCreate databaseId props None)
          (pages_create env databaseId props None);;
     log LInfo "Successfully created page for issue #{}" [AInt (number issue)])
    (fun error =>
       log LError "Failed to create page for issue #{} ({}): {}"
           [AInt (number issue); AStr (title issue); AErr error];;
       throw error).

(** [results.filter(r => r.status === 'rejected')], as the reasons. *)
Fixpoint rejections {A} (results : list (Settled A)) : list JsError :=
  match results with
  | [] => []
  | Rejected reason :: rest => reason :: rejections rest
  | Fulfilled _ :: rest => rejections rest
  end.

(** [createPages] (sync.ts 408-447). *)
Definition createPages (databaseId : jsstring) (pagesToCreate : list Issue)
  : M W unit :=
  log LInfo "Adding Github Issues to Notion..." [];;
  log LInfo "Creating {} pages in Notion database"
      [ACount (List.length pagesToCreate)];;
  match pagesToCreate with
  | [] => log LInfo "No new issues to add to Notion" []
  | _ :: _ =>
      results ← promise_allSettled
                  (List.map (createPage databaseId) pagesToCreate);
      match rejections results with
      | [] => ret tt
      | (first :: _) as failures =>
          log LError "{} of {} pages failed to create"
              [ACount (List.length failures);
               ACount (List.length pagesToCreate)];;
          throw (ErrCreatePagesFailed first)
      end
  end.

(** [syncNotionDBWithGitHub] (sync.ts 305-327). *)
Definition syncNotionDBWithGitHub (fuel : nat)
    (issuePageIds : gmap (option Z) jsstring)
    (databaseId githubRepo : jsstring) : M W unit :=
  try_catch
    (log LInfo "Starting sync for repository: {}" [AStr githubRepo];;
     issues ← getGitHubIssues fuel githubRepo;
     log LInfo "Found {} total issues in GitHub" [ACount (List.length issues)];;
     let pagesToCreate := getIssuesNotInNotion issuePageIds issues in
     log LInfo "{} issues need to be added to Notion"
         [ACount (List.length pagesToCreate)];;
     createPages databaseId pagesToCreate;;
     log LInfo "Sync completed successfully" [])
    (fun error =>
       log LError "Sync failed: {}" [AErr error];;
       throw error).

(** [run] (action.ts 222-274).  Constructing the two clients issues no
    request.  [fuel] bounds each pagination loop. *)
Definition run (fuel : nat) (options : Options) : M W unit :=
  log LInfo "Starting..." [];;
  match notion_databaseId options with
  | None | Some [] => throw ErrDatabaseIdNotConfigured
  | Some databaseId =>
      let payload := github_payload options in
      (if bool_decide (action payload = Some (lit "opened")) then
         handleIssueOpened databaseId payload
       else if bool_decide (github_eventName options = lit "workflow_dispatch") then
         try_catch
           (log LInfo "Using Notion database ID: {}" [AStr databaseId];;
            issuePageIds ← createIssueMapping fuel databaseId;
            match repository payload with
            | Some (Some ((_ :: _) as githubRepo)) =>
                syncNotionDBWithGitHub fuel issuePageIds databaseId githubRepo
            | _ => throw ErrNoRepositoryName
            end)
           (fun error =>
              log LError "Workflow dispatch sync failed: {}" [AErr error];;
              throw error)
       else
         handleIssueEdited databaseId payload);;
      log LInfo "Complete!" []
  end.
End Program.

(** ** What the properties observe

    Readings of a trace, and the statements of the specification that the
    properties below settle. *)

(** What the converter falls back to: nothing for an empty text, else
    one plain span with the first 2000 code units. *)
Definition fallback_spans (cleanBody : jsstring) : list RichTextItem :=
  match cleanBody with
  | [] => []
  | _ :: _ => [RText (firstn 2000 cleanBody) None plain_annotations]
  end.

(** The remote requests of a trace, in order. *)
Definition requests_of (tr : list Event) : list Request :=
  omap (fun ev => match ev with Call r => Some r | Log _ _ _ => None end) tr.

(** What it is for [run] to hand an invocation to the edited handler:
    it behaves as its start line, the handler on the payload, and its
    completion line. *)
Definition dispatches_to_edited {W : Type} (markdownToRichText : Parser)
    (env : Env W) (fuel : nat) (options : Options) (w : W) : Prop :=
  exists databaseId,
    run markdownToRichText env fuel options w
    = (log LInfo "Starting..." [];;
       handleIssueEdited markdownToRichText env databaseId
         (github_payload options);;
       log LInfo "Complete!" []) w.

(** The issue number a create-entry request carries in its [Number]
    property. *)
Definition number_property (props : CustomValueMap) : option Z :=
  match List.find (fun kv => String.eqb (fst kv) "Number") props with
  | Some (_, P_number n) => Some n
  | _ => None
  end.

(** The create-entry requests of a trace, by issue number, in order. *)
Definition created_numbers (tr : list Event) : list Z :=
  omap (fun ev => match ev with
                  | Call (PagesCreate _ props _) => number_property props
                  | _ => None
                  end) tr.

(** How far a creation task got with its issue: it issued the
    create-entry request, or its property mapping failed before. *)
Inductive Attempt :=
  | Requested (n : Z)
  | MappingFailed (n : Z).

Definition attempt_number (a : Attempt) : Z :=
  match a with
  | Requested n | MappingFailed n => n
  end.

Definition requested_number (a : Attempt) : option Z :=
  match a with
  | Requested n => Some n
  | MappingFailed _ => None
  end.

Definition attempt_of (ev : Event) : option Attempt :=
  match ev with
  | Call (PagesCreate _ props _) => Requested <$> number_property props
  | Log LError template (AInt n :: _) =>
      if String.eqb template "Failed to extract properties from issue #{}: {}"
      then Some (MappingFailed n) else None
  | _ => None
  end.

Definition attempts (tr : list Event) : list Attempt := omap attempt_of tr.

(** The last line of a creation task: success, or failure with its
    reason. *)
Definition settle_of (ev : Event) : option (Z * option JsError) :=
  match ev with
  | Log LInfo template [AInt n] =>
      if String.eqb template "Successfully created page for issue #{}"
      then Some (n, None) else None
  | Log LError template [AInt n; AStr _; AErr e] =>
      if String.eqb template "Failed to create page for issue #{} ({}): {}"
      then Some (n, Some e) else None
  | _ => None
  end.

Definition settles (tr : list Event) : list (Z * option JsError) :=
  omap settle_of tr.

Definition as_settled (o : option JsError) : Settled unit :=
  match o with
  | None => Fulfilled tt
  | Some e => Rejected e
  end.

(** The lines [createPages] logs around the tasks. *)
Definition opening_lines (issues : list Issue) : list Event :=
  [Log LInfo "Adding Github Issues to Notion..." [];
   Log LInfo "Creating {} pages in Notion database"
     [ACount (List.length issues)]].

Definition closing_lines (issues : list Issue) (failures : list JsError)
  : list Event :=
  match issues, failures with
  | [], _ => [Log LInfo "No new issues to add to Notion" []]
  | _ :: _, [] => []
  | _ :: _, _ :: _ =>
      [Log LError "{} of {} pages failed to create"
         [ACount (List.length failures); ACount (List.length issues)]]
  end.

(** What C1 states: the create-entry requests are those of the issues
    absent from the mapping, one each, in source-listing order. *)
Definition creates_exactly_missing {W : Type} (markdownToRichText : Parser)
    (env : Env W) (databaseId : jsstring)
    (issuePageIds : gmap (option Z) jsstring) (issues : list Issue) (w : W)
  : Prop :=
  created_numbers
    (trace (createPages markdownToRichText env databaseId
              (getIssuesNotInNotion issuePageIds issues) w))
  = List.map number
      (List.filter (fun i => negb (map_has issuePageIds (number i))) issues).

(** A computation whose log, requests and result do not depend on the
    world it starts from. *)
Definition oblivious {W A : Type} (m : M W A) : Prop :=
  forall w1 w2, trace (m w1) = trace (m w2) /\ result (m w1) = result (m w2).

(** Whether the pagination of the ledger, answered by [answer], is over
    within [fuel] requests: a request fails or a page comes without a
    further cursor. *)
Fixpoint pagination_ends (answer : QueryArgs -> JsError + QueryDatabaseResponse)
    (databaseId : jsstring) (fuel : nat) (cursor : option jsstring) : bool :=
  match fuel with
  | O => false
  | S fuel' =>
      match answer {| q_database_id := databaseId; q_filter := None;
                      q_start_cursor := cursor; q_page_size := None |} with
      | inl _ => true
      | inr response =>
          if truthy (next_cursor response)
          then pagination_ends answer databaseId fuel' (next_cursor response)
          else true
      end
  end.









(** Every project lookup of the world is answered. *)
Definition lookups_succeed {W : Type} (env : Env W) : Prop :=
  forall githubRepo issueNumber w,
    exists projectData w',
      getProjectData env githubRepo issueNumber w = (inr projectData, w').

(** ** Sample worlds and inputs *)

Module Sample.
(** A stand-in markup parser: the whole text as one plain span. *)
Definition one_span : Parser :=
  fun text => inr [RText text None plain_annotations].

(** A markup parser that throws on every input. *)
Definition throwing : Parser :=
  fun _ => inl (ExternalError (lit "unsupported markup")).


(** A world without state: the ledger holds [rows] and answers every
    query with all of them in one page; project lookups and page
    creations succeed or fail as the two flags say. *)
Definition world (rows : list PageObject) (lookup_ok create_ok : bool)
  : Env unit :=
  let unit_answer (ok : bool) : JsError + unit :=
    if ok then inr tt else inl (ExternalError (lit "request failed")) in
  {| databases_query := fun _ w =>
       (inr {| results := rows; next_cursor := None |}, w);
     pages_create := fun _ _ _ w => (unit_answer create_ok, w);
     pages_update := fun _ _ w => (inr tt, w);
     blocks_children_list := fun _ w => (inr [], w);
     blocks_update := fun _ _ w => (inr tt, w);
     blocks_children_append := fun _ _ w => (inr tt, w);
     blocks_delete := fun _ w => (inr tt, w);
     issues_listForRepo := fun _ w => (inr ([], false), w);
     getProjectData := fun _ _ w =>
       (if lookup_ok then inr None
        else inl (ExternalError (lit "lookup failed")), w) |}.

(** The world that answers everything, except that the creation of the
    page for issue number [n] fails. *)
Definition failing_for (n : Z) : Env unit :=
  {| databases_query := fun _ w =>
       (inr {| results := []; next_cursor := None |}, w);
     pages_create := fun _ props _ w =>
       (if bool_decide (number_property props = Some n)
        then inl (ExternalError (lit "validation_error")) else inr tt, w);
     pages_update := fun _ _ w => (inr tt, w);
     blocks_children_list := fun _ w => (inr [], w);
     blocks_update := fun _ _ w => (inr tt, w);
     blocks_children_append := fun _ _ w => (inr tt, w);
     blocks_delete := fun _ w => (inr tt, w);
     issues_listForRepo := fun _ w => (inr ([], false), w);
     getProjectData := fun _ _ w => (inr None, w) |}.

(** A world that changes with every request (it counts them) while
    the ledger keeps answering from the same [rows]. *)
Definition counting (rows : list PageObject) : Env nat :=
  {| databases_query := fun _ w =>
       (inr {| results := rows; next_cursor := None |}, S w);
     pages_create := fun _ _ _ w => (inr tt, S w);
     pages_update := fun _ _ w => (inr tt, S w);
     blocks_children_list := fun _ w => (inr [], S w);
     blocks_update := fun _ _ w => (inr tt, S w);
     blocks_children_append := fun _ _ w => (inr tt, S w);
     blocks_delete := fun _ w => (inr tt, S w);
     issues_listForRepo := fun _ w => (inr ([], false), S w);
     getProjectData := fun _ _ w => (inr None, S w) |}.

Definition an_issue (n : Z) (text : string) : Issue :=
  {| number := n; id := 1000 + n; title := lit "An issue";
     state := Some StateOpen; body := Some (lit text);
     assignees := []; labels := None; milestone := None;
     created_at := lit "2024-01-01T00:00:00Z";
     updated_at := lit "2024-01-02T00:00:00Z";
     repository_url := lit "https://api.github.com/repos/oakestra/oakestra";
     user := Some (lit "octocat");
     html_url := lit "https://github.com/oakestra/oakestra/issues/1";
     pull_request := false |}.

Definition payload_for (act : string) (i : Issue) : WebhookPayload :=
  {| action := Some (lit act); issue := Some i;
     repository := Some (Some (lit "oakestra/oakestra")) |}.

Definition options_for (db : option jsstring) (event : string)
    (payload : WebhookPayload) : Options :=
  {| notion_token := lit "secret"; notion_databaseId := db;
     github_payload := payload; github_eventName := lit event;
     github_token := lit "token" |}.

(** The world whose source repository lists [source] on one page and
    whose ledger answers everything. *)
Definition with_source (source : list Issue) : Env unit :=
  {| databases_query := fun _ w =>
       (inr {| results := []; next_cursor := None |}, w);
     pages_create := fun _ _ _ w => (inr tt, w);
     pages_update := fun _ _ w => (inr tt, w);
     blocks_children_list := fun _ w => (inr [], w);
     blocks_update := fun _ _ w => (inr tt, w);
     blocks_children_append := fun _ _ w => (inr tt, w);
     blocks_delete := fun _ w => (inr tt, w);
     issues_listForRepo := fun _ w => (inr (source, false), w);
     getProjectData := fun _ _ w => (inr None, w) |}.

(** The world whose ledger holds one entry, [page-1], with [blocks] as its
    content blocks, and answers everything. *)
Definition with_entry (blocks : list BlockObject) : Env unit :=
  {| databases_query := fun _ w =>
       (inr {| results := [ {| page_id := lit "page-1";
                               page_properties := None |} ];
               next_cursor := None |}, w);
     pages_create := fun _ _ _ w => (inr tt, w);
     pages_update := fun _ _ w => (inr tt, w);
     blocks_children_list := fun _ w => (inr blocks, w);
     blocks_update := fun _ _ w => (inr tt, w);
     blocks_children_append := fun _ _ w => (inr tt, w);
     blocks_delete := fun _ w => (inr tt, w);
     issues_listForRepo := fun _ w => (inr ([], false), w);
     getProjectData := fun _ _ w => (inr None, w) |}.

(** A request without its payload. *)
Inductive RequestKind :=
  | KQuery | KCreate | KUpdatePage | KListBlocks
  | KUpdateBlock (block : jsstring) | KAppend (n : nat)
  | KDeleteBlock (block : jsstring) | KListIssues | KProject.

Definition kind_of (r : Request) : RequestKind :=
  match r with
  | DatabasesQuery _ => KQuery
  | PagesCreate _ _ _ => KCreate
  | PagesUpdate _ _ => KUpdatePage
  | BlocksChildrenList _ => KListBlocks
  | BlocksUpdate block _ => KUpdateBlock block
  | BlocksChildrenAppend _ children => KAppend (List.length children)
  | BlocksDelete block => KDeleteBlock block
  | IssuesListForRepo _ => KListIssues
  | GetProjectData _ _ => KProject
  end.

Definition a_pull_request (n : Z) : Issue :=
  {| number := n; id := 1000 + n; title := lit "A pull request";
     state := Some StateOpen; body := None;
     assignees := []; labels := None; milestone := None;
     created_at := lit "2024-01-01T00:00:00Z";
     updated_at := lit "2024-01-02T00:00:00Z";
     repository_url := lit "https://api.github.com/repos/oakestra/oakestra";
     user := Some (lit "octocat");
     html_url := lit "https://github.com/oakestra/oakestra/pull/3";
     pull_request := true |}.

Definition numbered_row (page : string) (n : Z) : PageObject :=
  {| page_id := lit page;
     page_properties := Some {[ lit "Number" := NumberProperty (Some n) ]} |}.

(** A ledger row with an empty number cell, and one of a database that
    has no [Number] column. *)
Definition empty_number_row : PageObject :=
  {| page_id := lit "page-a";
     page_properties := Some {[ lit "Number" := NumberProperty None ]} |}.

Definition no_number_row : PageObject :=
  {| page_id := lit "page-b";
     page_properties := Some {[ lit "Name" := OtherProperty (lit "title") ]} |}.
End Sample.

(** ** Further observations

    Readings used by the further properties at the end of the file. *)

(** No [<] of the text opens a tag: [>] follows it directly, or no [>]
    comes after it. *)
Fixpoint tag_free (s : jsstring) : Prop :=
  match s with
  | [] => True
  | c :: tl => (c = Ch.lt -> head tl = Some Ch.gt \/ ~ In Ch.gt tl) /\ tag_free tl
  end.

(** [thinned s s']: [s'] is [s] with some code units other than the two
    angle brackets left out. *)
Inductive thinned : jsstring -> jsstring -> Prop :=
  | thinned_nil : thinned [] []
  | thinned_keep c s s' : thinned s s' -> thinned (c :: s) (c :: s')
  | thinned_drop c s s' :
      c <> Ch.lt -> c <> Ch.gt -> thinned s s' -> thinned (c :: s) s'.

(** Every log line and request of a computation, from whatever world it
    starts, passes the test [P]. *)
Definition emits_only {W A : Type} (P : Event -> bool) (m : M W A) : Prop :=
  forall w, forallb P (trace (m w)) = true.

(** A query of the database [databaseId] without a filter. *)
Definition is_plain_query (databaseId : jsstring) (ev : Event) : bool :=
  match ev with
  | Log _ _ _ => true
  | Call (DatabasesQuery args) =>
      bool_decide (q_database_id args = databaseId)
      && match q_filter args, q_page_size args with
         | None, None => true
         | _, _ => false
         end
  | Call _ => false
  end.

(** The requests of a reconciliation pass: listing the source, looking a
    project up, creating a page in [databaseId], without content blocks. *)
Definition is_sync_request (databaseId : jsstring) (ev : Event) : bool :=
  match ev with
  | Log _ _ _ => true
  | Call (IssuesListForRepo _) => true
  | Call (GetProjectData _ _) => true
  | Call (PagesCreate d _ None) => bool_decide (d = databaseId)
  | Call _ => false
  end.

(** A request to the ledger, not to the source. *)
Definition is_ledger_event (ev : Event) : bool :=
  match ev with
  | Call (IssuesListForRepo _) | Call (GetProjectData _ _) => false
  | _ => true
  end.

(** Any line but the completion line of [run]. *)
Definition is_not_completion (ev : Event) : bool :=
  match ev with
  | Log LInfo template [] => negb (String.eqb template "Complete!")
  | _ => true
  end.

(** No request at all. *)
Definition is_log_line (ev : Event) : bool :=
  match ev with
  | Log _ _ _ => true
  | Call _ => false
  end.

(** Events other than the creation of a ledger entry. *)
Definition is_not_creation (ev : Event) : bool :=
  match ev with
  | Call (PagesCreate _ _ _) => false
  | _ => true
  end.

(** More sample worlds. *)
Module Cases.
(** The ledger is out of reach: every query fails. *)
Definition broken_ledger : Env unit :=
  {| databases_query := fun _ w => (inl (ExternalError (lit "502")), w);
     pages_create := fun _ _ _ w => (inr tt, w);
     pages_update := fun _ _ w => (inr tt, w);
     blocks_children_list := fun _ w => (inr [], w);
     blocks_update := fun _ _ w => (inr tt, w);
     blocks_children_append := fun _ _ w => (inr tt, w);
     blocks_delete := fun _ w => (inr tt, w);
     issues_listForRepo := fun _ w => (inr ([], false), w);
     getProjectData := fun _ _ w => (inr None, w) |}.

(** The ledger holds the entry [page-1] and refuses to update it. *)
Definition read_only_ledger : Env unit :=
  {| databases_query := fun _ w =>
       (inr {| results := [ {| page_id := lit "page-1";
                               page_properties := None |} ];
               next_cursor := None |}, w);
     pages_create := fun _ _ _ w => (inr tt, w);
     pages_update := fun _ _ w => (inl (ExternalError (lit "403")), w);
     blocks_children_list := fun _ w => (inr [ {| block_id := lit "block0" |} ], w);
     blocks_update := fun _ _ w => (inr tt, w);
     blocks_children_append := fun _ _ w => (inr tt, w);
     blocks_delete := fun _ w => (inr tt, w);
     issues_listForRepo := fun _ w => (inr ([], false), w);
     getProjectData := fun _ _ w => (inr None, w) |}.
End Cases.

(** The value of a key in an object literal. *)
Definition property_of (key : string) (props : CustomValueMap)
  : option PropertyValue :=
  snd <$> List.find (fun kv => String.eqb (fst kv) key) props.

(** The spans the converter returns for a body. *)
Definition spans_of (markdownToRichText : Parser) (body : option jsstring)
  : list RichTextItem :=
  match markdownToRichText (preprocessMarkdown (removeHTML body)) with
  | inr spans => spans
  | inl _ => fallback_spans (removeHTML body)
  end.

(** * Properties *)

Ltac unfold_monad :=
  unfold mbind, M_bind, mret, M_ret, bind, ret, throw, pending, log, call,
    try_catch, lift, settled in *.

(** ** Content-block plan *)

Lemma pair_by_index_combine (blocks : list Block) (existing : list BlockObject) :
  pair_by_index blocks existing = combine (List.map block_id existing) blocks.
Proof.
  revert existing; induction blocks as [|b bs IH]; intros [|e es]; simpl;
    try reflexivity.
  now rewrite IH.
Qed.

Lemma pair_by_index_snd (blocks : list Block) (existing : list BlockObject) :
  (List.length blocks <= List.length existing)%nat ->
  List.map snd (pair_by_index blocks existing) = blocks.
Proof.
  revert existing; induction blocks as [|b bs IH]; intros [|e es]; simpl;
    intros Hlen; try reflexivity; try lia.
  f_equal. apply IH. lia.
Qed.

Lemma pair_by_index_length (blocks : list Block) (existing : list BlockObject) :
  List.length (pair_by_index blocks existing)
  = Nat.min (List.length blocks) (List.length existing).
Proof.
  revert existing; induction blocks as [|b bs IH]; intros [|e es]; simpl;
    try reflexivity.
  now rewrite IH.
Qed.

(** C3. For every desired and every existing block list, the plan of the
    edited handler updates [min(len desired, len existing)] blocks,
    pairing position [i] of the desired list with the id at position [i]
    of the existing list; appends the [max(0, len desired - len existing)]
    blocks of the tail of the desired list, in order; deletes the
    [max(0, len existing - len desired)] ids of the tail of the existing
    list; and the updated blocks followed by the appended ones are the
    desired list. *)
Theorem blockPlan_positional (desired : list Block) (existing : list BlockObject) :
  let plan := blockPlan desired existing in
  let overlap := Nat.min (List.length desired) (List.length existing) in
  List.length (toUpdate plan) = overlap
  /\ toUpdate plan
     = combine (List.map block_id (firstn overlap existing)) (firstn overlap desired)
  /\ List.length (toAppend plan)
     = Nat.max 0 (List.length desired - List.length existing)
  /\ toAppend plan = skipn (List.length existing) desired
  /\ List.length (toDelete plan)
     = Nat.max 0 (List.length existing - List.length desired)
  /\ toDelete plan = List.map block_id (skipn (List.length desired) existing)
  /\ List.map snd (toUpdate plan) ++ toAppend plan = desired.
Proof.
  cbv zeta. unfold blockPlan; cbn [toUpdate toAppend toDelete].
  set (d := List.length desired). set (e := List.length existing).
  assert (Hup : pair_by_index (firstn (Nat.min d e) desired) existing
                = combine (List.map block_id (firstn (Nat.min d e) existing))
                          (firstn (Nat.min d e) desired)).
  { rewrite pair_by_index_combine, combine_firstn_r, List.firstn_map.
    rewrite List.length_firstn. fold d.
    now replace (Nat.min (Nat.min d e) d) with (Nat.min d e) by lia. }
  repeat split.
  - rewrite pair_by_index_length, List.length_firstn. fold d e. lia.
  - exact Hup.
  - destruct (Nat.ltb_spec e d).
    + rewrite List.length_skipn. fold d. lia.
    + simpl. lia.
  - destruct (Nat.ltb_spec e d).
    + now replace (Nat.min d e) with e by lia.
    + symmetry. apply skipn_all2. fold d e. lia.
  - destruct (Nat.ltb_spec e d); [simpl; lia|].
    destruct (Nat.ltb_spec d e).
    + rewrite List.length_map, List.length_skipn. fold e. lia.
    + simpl. lia.
  - destruct (Nat.ltb_spec e d).
    + symmetry. rewrite skipn_all2; [reflexivity | fold d e; lia].
    + destruct (Nat.ltb_spec d e).
      * now replace (Nat.min d e) with d by lia.
      * symmetry. rewrite skipn_all2; [reflexivity | fold d e; lia].
  - rewrite pair_by_index_snd by (rewrite List.length_firstn; fold d e; lia).
    destruct (Nat.ltb_spec e d).
    + apply firstn_skipn.
    + rewrite app_nil_r. apply firstn_all2. fold d e. lia.
Qed.

(** ** Rich-text converter: the fallback *)

(** The whole run of the converter: the spans of the parser, or, after a
    warning, the fallback. *)
Lemma parseBodyRichText_runs {W : Type} (markdownToRichText : Parser)
    (body : option jsstring) (w : W) :
  parseBodyRichText markdownToRichText body w
  = match markdownToRichText (preprocessMarkdown (removeHTML body)) with
    | inr spans => MkRun [] (Returned spans) w
    | inl error =>
        MkRun [Log LWarning "Failed to parse markdown: {}" [AErr error]]
              (Returned (fallback_spans (removeHTML body))) w
    end.
Proof.
  unfold parseBodyRichText, fallback_spans. unfold_monad.
  destruct (markdownToRichText _) as [error|spans]; [|reflexivity].
  now destruct (removeHTML body).
Qed.

(** C5. The rich-text converter never propagates an error: on every body
    it returns, and leaves the world as it was.  When the markup parser
    throws, the result is one plain-text span holding the tag-stripped
    (not markdown-processed) text cut to 2000 code units, or the empty
    sequence when that text is empty. *)
Theorem parseBodyRichText_never_throws {W : Type} (markdownToRichText : Parser)
    (body : option jsstring) (w : W) :
  let clean := removeHTML body in
  let fallback :=
    match clean with
    | [] => []
    | _ :: _ => [RText (firstn 2000 clean) None plain_annotations]
    end in
  result (parseBodyRichText markdownToRichText body w)
  = Returned (match markdownToRichText (preprocessMarkdown clean) with
              | inr spans => spans
              | inl _ => fallback
              end)
  /\ final (parseBodyRichText markdownToRichText body w) = w
  /\ (List.length (firstn 2000 clean) <= 2000)%nat.
Proof.
  cbv zeta. rewrite parseBodyRichText_runs.
  destruct (markdownToRichText _) as [error|spans];
    (split; [reflexivity | split; [reflexivity | apply List.firstn_le_length]]).
Qed.

(** ** [run]: configuration and dispatch *)

(** C9. When the configured database id is missing or empty, [run] logs
    its start, raises the configuration error and has issued no remote
    request: no source fetch, no ledger query, no create, update or
    delete. *)
Theorem run_rejects_missing_database {W : Type} (markdownToRichText : Parser)
    (env : Env W) (fuel : nat) (options : Options) (w : W) :
  notion_databaseId options = None \/ notion_databaseId options = Some [] ->
  let r := run markdownToRichText env fuel options w in
  result r = Thrown ErrDatabaseIdNotConfigured
  /\ requests_of (trace r) = []
  /\ trace r = [Log LInfo "Starting..." []]
  /\ final r = w.
Proof.
  intros Hdb. cbv zeta. unfold run. unfold_monad.
  destruct Hdb as [-> | ->]; simpl; repeat split; reflexivity.
Qed.

Lemma run_rejects_missing_database_witness :
  let r := run Sample.one_span (Sample.world [] true true) 5
             (Sample.options_for (Some []) "workflow_dispatch"
                (Sample.payload_for "closed" (Sample.an_issue 7 "text"))) tt in
  result r = Thrown ErrDatabaseIdNotConfigured
  /\ requests_of (trace r) = []
  /\ trace r = [Log LInfo "Starting..." []]
  /\ final r = tt.
Proof.
  apply (run_rejects_missing_database Sample.one_span
           (Sample.world [] true true) 5).
  right. reflexivity.
Defined.

(** C10, as amended. For every invocation with a configured (non-empty)
    database id whose payload action is not [opened] and whose event name
    is not [workflow_dispatch], [run] hands the payload to the edited
    handler, whatever the event is (closed, labeled, ...). *)
Theorem run_falls_through_to_edited {W : Type} (markdownToRichText : Parser)
    (env : Env W) (fuel : nat) (options : Options) (w : W)
    (c : N) (databaseId : jsstring) :
  notion_databaseId options = Some (c :: databaseId) ->
  action (github_payload options) <> Some (lit "opened") ->
  github_eventName options <> lit "workflow_dispatch" ->
  run markdownToRichText env fuel options w
  = (log LInfo "Starting..." [];;
     handleIssueEdited markdownToRichText env (c :: databaseId)
       (github_payload options);;
     log LInfo "Complete!" []) w.
Proof.
  intros Hdb Hact Hev. unfold run. rewrite Hdb.
  rewrite (bool_decide_eq_false_2 _ Hact), (bool_decide_eq_false_2 _ Hev).
  reflexivity.
Qed.

Lemma run_falls_through_to_edited_witness :
  dispatches_to_edited Sample.one_span (Sample.world [] true true) 5
    (Sample.options_for (Some (lit "db-1")) "issues"
       (Sample.payload_for "closed" (Sample.an_issue 7 "text"))) tt.
Proof.
  exists (lit "db-1").
  apply (run_falls_through_to_edited Sample.one_span
           (Sample.world [] true true) 5 _ tt 100%N (lit "b-1")).
  - reflexivity.
  - vm_compute. discriminate.
  - vm_compute. discriminate.
Defined.

(** C10 as stated fails: with an empty database id a [closed] event
    never reaches the edited handler; [run] stops at its start line. *)
Lemma run_closed_event_without_database :
  ~ dispatches_to_edited Sample.one_span (Sample.world [] true true) 5
      (Sample.options_for (Some []) "issues"
         (Sample.payload_for "closed" (Sample.an_issue 7 "text"))) tt.
Proof.
  intros [databaseId H]. apply (f_equal trace) in H.
  vm_compute in H. discriminate H.
Qed.

(** ** Reconciliation driver: what the creation fan-out leaves in the trace *)

Lemma attempts_app (tr1 tr2 : list Event) :
  attempts (tr1 ++ tr2) = attempts tr1 ++ attempts tr2.
Proof. apply omap_app. Qed.

Lemma settles_app (tr1 tr2 : list Event) :
  settles (tr1 ++ tr2) = settles tr1 ++ settles tr2.
Proof. apply omap_app. Qed.

Lemma created_numbers_app (tr1 tr2 : list Event) :
  created_numbers (tr1 ++ tr2) = created_numbers tr1 ++ created_numbers tr2.
Proof. apply omap_app. Qed.

Lemma created_numbers_attempts (tr : list Event) :
  created_numbers tr = omap requested_number (attempts tr).
Proof.
  induction tr as [|ev tr IH]; [reflexivity|].
  change (ev :: tr) with ([ev] ++ tr).
  rewrite created_numbers_app, attempts_app, omap_app, IH. f_equal.
  destruct ev as [[] template [|[] args]|[]]; try reflexivity.
  - cbn. destruct (String.eqb _ _); reflexivity.
  - cbn. destruct (number_property properties); reflexivity.
Qed.

Lemma around_lines_silent (issues : list Issue) (failures : list JsError) :
  attempts (opening_lines issues) = [] /\ settles (opening_lines issues) = []
  /\ attempts (closing_lines issues failures) = []
  /\ settles (closing_lines issues failures) = [].
Proof. destruct issues, failures; repeat split. Qed.

Ltac split_trace :=
  rewrite ?attempts_app, ?settles_app, ?created_numbers_app.

Section Driver.
Context {W : Type} (markdownToRichText : Parser) (env : Env W).

(** One creation task: it either issues the create-entry request of its
    issue or logs that the property mapping failed, which only a failed
    project lookup brings about, and its last line says how it settled. *)
Lemma createPage_shape (databaseId : jsstring) (issue : Issue) (w : W) :
  exists (tr : list Event) (a : Attempt) (o : option JsError) (w' : W),
    createPage markdownToRichText env databaseId issue w
    = MkRun tr (match o with None => Returned tt | Some e => Thrown e end) w'
    /\ attempts tr = [a]
    /\ attempt_number a = number issue
    /\ settles tr = [(number issue, o)]
    /\ (lookups_succeed env -> a = Requested (number issue)).
Proof.
  unfold createPage, getPropertiesFromIssue, createMultiSelectObjects.
  unfold_monad. cbn beta iota zeta.
  match goal with |- context [getProjectData env ?r ?n w] =>
    destruct (getProjectData env r n w) as [[e|pd] w1] eqn:Hlookup end;
    cbn [trace result final].
  - eexists _, (MappingFailed (number issue)), (Some e), _.
    split; [reflexivity|]. repeat split.
    intros Hok.
    match type of Hlookup with getProjectData env ?r ?n w = _ =>
      destruct (Hok r n w) as (pd & w' & Hpd) end.
    rewrite Hpd in Hlookup. discriminate Hlookup.
  - rewrite parseBodyRichText_runs.
    assert (Hquiet : forall tr : list Event,
               tr = [] \/ (exists e, tr = [Log LWarning
                                             "Failed to parse markdown: {}"
                                             [AErr e]]) ->
               attempts tr = [] /\ settles tr = []).
    { intros tr [->|[e ->]]; split; reflexivity. }
    destruct (markdownToRichText _) as [perr|spans];
      match goal with |- context [pages_create env ?d ?p ?c w1] =>
        destruct (pages_create env d p c w1) as [[e|[]] w2] end;
      cbn [trace result final];
      [ eexists _, (Requested (number issue)), (Some e), _
      | eexists _, (Requested (number issue)), None, _
      | eexists _, (Requested (number issue)), (Some e), _
      | eexists _, (Requested (number issue)), None, _ ];
      (split; [reflexivity|]); repeat split.
Qed.

(** The fan-out over a list of issues: one attempt and one settling line
    per issue, in list order, and the settled results in the same order. *)
Lemma run_all_createPage (databaseId : jsstring) (issues : list Issue) (w : W) :
  exists (tr : list Event) (w' : W),
    promise_allSettled
      (List.map (createPage markdownToRichText env databaseId) issues) w
    = MkRun tr (Returned (List.map as_settled (List.map snd (settles tr)))) w'
    /\ List.map attempt_number (attempts tr) = List.map number issues
    /\ List.map fst (settles tr) = List.map number issues
    /\ (lookups_succeed env ->
        omap requested_number (attempts tr) = List.map number issues).
Proof.
  unfold promise_allSettled.
  revert w; induction issues as [|issue issues IH]; intros w.
  - exists [], w. repeat split.
  - destruct (createPage_shape databaseId issue w)
      as (tr1 & a & o & w1 & Hrun & Ha & Hn & Hs & Hreq).
    destruct (IH w1) as (tr2 & w2 & Hrest & Ha2 & Hs2 & Hreq2).
    cbn [List.map run_all]. rewrite Hrun.
    destruct (run_all _ w1) as [[tr os] w'].
    injection Hrest as -> Hos ->.
    exists (tr1 ++ tr2), w2. split_trace. rewrite Ha, Hs.
    cbn [List.map app fst snd settle_all]. rewrite Hos, Hn, Ha2, Hs2.
    split; [destruct o; reflexivity|].
    split; [reflexivity|]. split; [reflexivity|].
    intros Hok. rewrite (Hreq Hok). cbn. now rewrite (Hreq2 Hok).
Qed.

Lemma rejections_as_settled (os : list (option JsError)) :
  rejections (List.map as_settled os) = omap (fun o => o) os.
Proof.
  induction os as [|[e|] os IH]; cbn; [reflexivity | now rewrite IH | exact IH].
Qed.

(** The whole of [createPages]: its trace is the two opening lines, the
    tasks' traces and, when a task failed, the failure count; its result
    is decided by the reasons of the failed tasks. *)
Lemma createPages_shape (databaseId : jsstring) (issues : list Issue) (w : W) :
  exists (tr : list Event) (w' : W),
    let failures := omap (fun o => o) (List.map snd (settles tr)) in
    createPages markdownToRichText env databaseId issues w
    = MkRun
        (opening_lines issues ++ tr ++ closing_lines issues failures)
        match failures with
        | [] => Returned tt
        | first :: _ => Thrown (ErrCreatePagesFailed first)
        end
        w'
    /\ List.map attempt_number (attempts tr) = List.map number issues
    /\ List.map fst (settles tr) = List.map number issues
    /\ (lookups_succeed env ->
        omap requested_number (attempts tr) = List.map number issues).
Proof.
  destruct issues as [|issue issues].
  - exists [], w. repeat split.
  - destruct (run_all_createPage databaseId (issue :: issues) w)
      as (tr & w' & Hrun & Ha & Hs & Hreq).
    exists tr, w'. split; [|repeat split; assumption].
    clear Hreq.
    unfold createPages, opening_lines, closing_lines. unfold_monad.
    cbn beta iota zeta. rewrite Hrun, rejections_as_settled.
    destruct (omap (fun o => o) _) as [|first failures]; cbn [app];
      rewrite ?app_nil_r; reflexivity.
Qed.
End Driver.

Lemma getIssuesNotInNotion_filter (issuePageIds : gmap (option Z) jsstring)
    (issues : list Issue) :
  getIssuesNotInNotion issuePageIds issues
  = List.filter (fun i => negb (map_has issuePageIds (number i))) issues.
Proof.
  induction issues as [|i issues IH]; cbn; [reflexivity|].
  rewrite IH. reflexivity.
Qed.

Lemma requested_sublist (l : list Attempt) :
  sublist (omap requested_number l) (List.map attempt_number l).
Proof.
  induction l as [|[n|n] l IH]; cbn.
  - constructor.
  - now apply sublist_skip.
  - now apply sublist_cons.
Qed.

(** C1, as amended. For every mapping and every source issue list, the
    driver starts one creation task for each issue whose number is absent
    from the mapping, in source-listing order, and none for an issue whose
    number is present.  Each task either issues the create-entry request
    of its issue or, when the property mapping of the issue failed, logs
    that and issues no request.  So the create-entry requests, listed task
    by task, are a subsequence of the absent issues; none names a number
    present in the mapping; and when every project lookup is answered,
    there is exactly one for each absent issue. *)
Theorem createPages_attempts_missing {W : Type} (markdownToRichText : Parser)
    (env : Env W) (databaseId : jsstring)
    (issuePageIds : gmap (option Z) jsstring) (issues : list Issue) (w : W) :
  let missing :=
    List.filter (fun i => negb (map_has issuePageIds (number i))) issues in
  let tr := trace (createPages markdownToRichText env databaseId
                     (getIssuesNotInNotion issuePageIds issues) w) in
  getIssuesNotInNotion issuePageIds issues = missing
  /\ List.map attempt_number (attempts tr) = List.map number missing
  /\ created_numbers tr = omap requested_number (attempts tr)
  /\ sublist (created_numbers tr) (List.map number missing)
  /\ Forall (fun n => issuePageIds !! Some n = None) (created_numbers tr)
  /\ (lookups_succeed env -> created_numbers tr = List.map number missing).
Proof.
  cbv zeta. rewrite getIssuesNotInNotion_filter.
  set (missing := List.filter _ issues).
  destruct (createPages_shape markdownToRichText env databaseId missing w)
    as (tr & w' & Hrun & Ha & _ & Hreq).
  cbv zeta in Hrun. rewrite Hrun. cbn [trace].
  set (failures := omap (fun o => o) (List.map snd (settles tr))).
  destruct (around_lines_silent missing failures) as (Ho & _ & Hc & _).
  assert (Hatt : attempts (opening_lines missing ++ tr
                           ++ closing_lines missing failures) = attempts tr).
  { rewrite !attempts_app, Ho, Hc. apply app_nil_r. }
  rewrite created_numbers_attempts, Hatt.
  assert (Hsub : sublist (omap requested_number (attempts tr))
                         (List.map number missing)).
  { rewrite <- Ha. apply requested_sublist. }
  repeat split; try assumption.
  apply Forall_forall. intros n Hn.
  apply (elem_of_sublist _ _ _ Hn) in Hsub.
  apply list_elem_of_In, List.in_map_iff in Hsub as (i & <- & Hi).
  apply List.filter_In in Hi as [_ Hi]. unfold map_has in Hi.
  now destruct (issuePageIds !! Some (number i)).
Qed.

(** C1 as stated fails: when the project lookup of an absent issue
    fails, its property mapping fails and no create-entry request is
    issued for it. *)
Lemma createPages_lookup_failure_no_request :
  ~ creates_exactly_missing Sample.one_span (Sample.world [] false true)
      (lit "db-1") ∅ [Sample.an_issue 1 "text"] tt.
Proof. unfold creates_exactly_missing. vm_compute. discriminate. Qed.

(** C2. In the creation fan-out every task runs to its last line, whatever
    the other tasks do: the trace holds one settling line per issue, in
    order.  When at least one task failed, [createPages] raises an error
    that carries the reason of the first failed task, and it does so after
    the settling lines of all tasks: the failure count is the last line of
    the trace and every settling line stands before it. *)
Theorem createPages_settles_all {W : Type} (markdownToRichText : Parser)
    (env : Env W) (databaseId : jsstring) (pagesToCreate : list Issue) (w : W) :
  let r := createPages markdownToRichText env databaseId pagesToCreate w in
  let failures := omap (fun o => o) (List.map snd (settles (trace r))) in
  List.map fst (settles (trace r)) = List.map number pagesToCreate
  /\ result r = match failures with
                | [] => Returned tt
                | first :: _ => Thrown (ErrCreatePagesFailed first)
                end
  /\ match failures with
     | [] => True
     | _ :: _ =>
         exists before,
           trace r
           = before ++ [Log LError "{} of {} pages failed to create"
                          [ACount (List.length failures);
                           ACount (List.length pagesToCreate)]]
           /\ settles before = settles (trace r)
     end.
Proof.
  cbv zeta.
  destruct (createPages_shape markdownToRichText env databaseId pagesToCreate w)
    as (tr & w' & Hrun & _ & Hs & _).
  cbv zeta in Hrun. rewrite Hrun. cbn [trace result].
  set (failures := omap (fun o => o) (List.map snd (settles tr))) in *.
  destruct (around_lines_silent pagesToCreate failures) as (_ & Ho & _ & Hc).
  assert (Hset : settles (opening_lines pagesToCreate ++ tr
                          ++ closing_lines pagesToCreate failures) = settles tr).
  { rewrite !settles_app, Ho, Hc. apply app_nil_r. }
  rewrite Hset. fold failures.
  split; [exact Hs | split; [reflexivity|]].
  destruct failures as [|first rest] eqn:Hf; [exact I|].
  destruct pagesToCreate as [|issue issues].
  - cbn in Hs. destruct (settles tr); [discriminate Hf | discriminate Hs].
  - exists (opening_lines (issue :: issues) ++ tr).
    split; [now rewrite <- app_assoc|].
    now rewrite settles_app, Ho.
Qed.

(** ** Edited handler: no matching entry *)

(** C4 fails on the code. For every issue-edited event whose id matches
    no ledger entry, the handler logs the warning and issues the
    create-entry request, and then raises: when the creation itself
    succeeded, the error is the [TypeError] of reading [id] off the first
    of no results (action.ts 197). *)
Theorem handleIssueEdited_not_found_raises {W : Type}
    (markdownToRichText : Parser) (env : Env W) (databaseId : jsstring)
    (payload : WebhookPayload) (i : Issue) (w w1 : W)
    (response : QueryDatabaseResponse) :
  issue payload = Some i ->
  databases_query env
    {| q_database_id := databaseId; q_filter := Some (FilterIDEquals (id i));
       q_start_cursor := None; q_page_size := Some 1%nat |} w
  = (inr response, w1) ->
  results response = [] ->
  let r := handleIssueEdited markdownToRichText env databaseId payload w in
  In (Log LWarning "Could not find page with github id {}, creating a new one"
          [AInt (id i)]) (trace r)
  /\ exists props children,
       In (Call (PagesCreate databaseId props (Some children))) (trace r)
       /\ result r
          = match fst (pages_create env databaseId props (Some children) w1) with
            | inr _ => Thrown (TypeErrorUndefined "id")
            | inl e => Thrown e
            end.
Proof.
  intros Hissue Hquery Hnone. cbv zeta.
  unfold handleIssueEdited, payload_issue, getBodyChildrenBlocks,
    parsePropertiesFromPayload.
  rewrite Hissue. unfold_monad. cbn beta iota zeta. rewrite Hquery.
  cbn beta iota zeta.
  assert (Hparse : exists spans tr,
             parseBodyRichText markdownToRichText (body i) w1
             = MkRun tr (Returned spans) w1).
  { rewrite parseBodyRichText_runs.
    destruct (markdownToRichText _); eauto. }
  destruct Hparse as (spans & tr & Hparse).
  rewrite !Hparse. cbn beta iota zeta. rewrite Hnone.
  rewrite !Hparse. cbn beta iota zeta.
  match goal with |- context [pages_create env ?d ?p (Some ?c) w1] =>
    destruct (pages_create env d p (Some c) w1) as [[e|[]] w2] eqn:Hcreate;
    cbn [trace result final];
    (split; [rewrite ?List.in_app_iff; cbn [In]; auto 10|]);
    exists p, c; rewrite Hcreate;
    (split; [rewrite ?List.in_app_iff; cbn [In]; auto 10 | reflexivity])
  end.
Qed.

Lemma handleIssueEdited_not_found_raises_witness :
  let r := handleIssueEdited Sample.one_span (Sample.world [] true true)
             (lit "db-1") (Sample.payload_for "edited" (Sample.an_issue 7 "text"))
             tt in
  result r = Thrown (TypeErrorUndefined "id")
  /\ In (Log LWarning "Could not find page with github id {}, creating a new one"
            [AInt 1007]) (trace r).
Proof.
  destruct (handleIssueEdited_not_found_raises Sample.one_span
              (Sample.world [] true true) (lit "db-1")
              (Sample.payload_for "edited" (Sample.an_issue 7 "text"))
              (Sample.an_issue 7 "text") tt tt
              {| results := []; next_cursor := None |}
              eq_refl eq_refl eq_refl) as (Hwarn & _).
  split; [vm_compute; reflexivity | exact Hwarn].
Defined.

(** ** Mapping builder *)

(** C6 fails on the code. A ledger row whose [Number] cell is empty (the
    property is there, its number is [null]) passes the
    [typeof num !== 'undefined'] test and is inserted, under the key
    [null]; a row that has no [Number] property at all is not skipped
    either: reading [.number] off the missing property raises, and the
    build fails. *)
Theorem createIssueMapping_rows_without_number :
  (exists issuePageIds,
     result (createIssueMapping
               (Sample.world [Sample.empty_number_row] true true) 3
               (lit "db-1") tt) = Returned issuePageIds
     /\ issuePageIds !! None = Some (lit "page-a"))
  /\ result (createIssueMapping
               (Sample.world [Sample.no_number_row] true true) 3
               (lit "db-1") tt) = Thrown (TypeErrorUndefined "number").
Proof.
  split.
  - eexists. split; [vm_compute; reflexivity|]. vm_compute. reflexivity.
  - vm_compute. reflexivity.
Qed.

Section Oblivious.
Context {W : Type}.

Lemma oblivious_const {A} (tr : list Event) (o : outcome A) :
  oblivious (fun w : W => MkRun tr o w).
Proof. intros w1 w2. split; reflexivity. Qed.

Lemma oblivious_bind {A B} (m : M W A) (k : A -> M W B) :
  oblivious m -> (forall a, oblivious (k a)) -> oblivious (bind m k).
Proof.
  intros Hm Hk w1 w2. unfold bind.
  destruct (Hm w1 w2) as [Ht Hr].
  destruct (m w1) as [tr1 o1 v1], (m w2) as [tr2 o2 v2].
  cbn in Ht, Hr. subst tr2 o2.
  destruct o1 as [a|e|]; [|split; reflexivity..].
  destruct (Hk a v1 v2) as [Ht Hr].
  destruct (k a v1), (k a v2). cbn in *. now subst.
Qed.

Lemma oblivious_try_catch {A} (m : M W A) (h : JsError -> M W A) :
  oblivious m -> (forall e, oblivious (h e)) -> oblivious (try_catch m h).
Proof.
  intros Hm Hh w1 w2. unfold try_catch.
  destruct (Hm w1 w2) as [Ht Hr].
  destruct (m w1) as [tr1 o1 v1], (m w2) as [tr2 o2 v2].
  cbn in Ht, Hr. subst tr2 o2.
  destruct o1 as [a|e|]; [split; reflexivity| |split; reflexivity].
  destruct (Hh e v1 v2) as [Ht Hr].
  destruct (h e v1), (h e v2). cbn in *. now subst.
Qed.

Lemma oblivious_call {A} (request : Request)
    (answer : W -> (JsError + A) * W) (fixed : JsError + A) :
  (forall w, fst (answer w) = fixed) -> oblivious (call request answer).
Proof.
  intros Hfix w1 w2. unfold call.
  pose proof (Hfix w1) as H1. pose proof (Hfix w2) as H2.
  destruct (answer w1), (answer w2). cbn in *. now subst.
Qed.
End Oblivious.

Section FixedLedger.
Context {W : Type} (env : Env W)
        (answer : QueryArgs -> JsError + QueryDatabaseResponse).
Hypothesis fixed : forall args w, fst (databases_query env args w) = answer args.

Lemma query_pages_oblivious (fuel : nat) (databaseId : jsstring)
    (cursor : option jsstring) (pages : list PageObject) :
  oblivious (query_pages env fuel databaseId cursor pages).
Proof.
  revert cursor pages; induction fuel as [|fuel IH]; intros cursor pages.
  - apply oblivious_const.
  - cbn [query_pages]. apply oblivious_bind.
    + eapply oblivious_call. intros w. apply fixed.
    + intros response. destruct (truthy _); [apply IH | apply oblivious_const].
Qed.

Lemma query_pages_settles (fuel : nat) (databaseId : jsstring)
    (cursor : option jsstring) (pages : list PageObject) (w : W) :
  pagination_ends answer databaseId fuel cursor = true ->
  result (query_pages env fuel databaseId cursor pages w) <> Pending.
Proof.
  revert cursor pages w; induction fuel as [|fuel IH]; intros cursor pages w.
  - discriminate.
  - cbn [pagination_ends query_pages]. unfold_monad.
    rewrite <- (fixed _ w).
    destruct (databases_query env _ w) as [[e|response] w1]; cbn.
    + discriminate.
    + destruct (truthy (next_cursor response)).
      * intros Hend. specialize (IH _ (pages ++ results response) w1 Hend).
        destruct (query_pages env fuel databaseId _ _ w1) as [tr o w2].
        cbn in *. exact IH.
      * discriminate.
Qed.
End FixedLedger.

Lemma page_entries_settles (pages : list PageObject) :
  page_entries pages <> Pending.
Proof.
  induction pages as [|page pages IH]; cbn; [discriminate|].
  unfold page_entry.
  destruct (page_properties page) as [props|].
  - destruct (props !! lit "Number") as [[num|type]|];
      [| |discriminate]; destruct (page_entries pages);
      congruence || discriminate.
  - destruct (page_entries pages); congruence || discriminate.
Qed.

Section Builder.
Context {W : Type} (env : Env W)
        (answer : QueryArgs -> JsError + QueryDatabaseResponse).
Hypothesis fixed : forall args w, fst (databases_query env args w) = answer args.

Lemma createIssueMapping_oblivious (fuel : nat) (databaseId : jsstring) :
  oblivious (createIssueMapping env fuel databaseId).
Proof.
  unfold createIssueMapping, getIssuesAlreadyInNotion, mbind, M_bind.
  apply oblivious_bind; [|intros; apply oblivious_const].
  apply oblivious_bind; [apply oblivious_const|]. intros _.
  apply oblivious_try_catch.
  - apply oblivious_bind; [now apply (query_pages_oblivious env answer)|].
    intros pages. apply oblivious_bind; [apply oblivious_const|].
    intros res. apply oblivious_bind; intros; apply oblivious_const.
  - intros e. repeat (apply oblivious_bind; [apply oblivious_const|intros _]).
    apply oblivious_const.
Qed.

Lemma createIssueMapping_settles (fuel : nat) (databaseId : jsstring) (w : W) :
  pagination_ends answer databaseId fuel None = true ->
  result (createIssueMapping env fuel databaseId w) <> Pending.
Proof.
  intros Hend.
  pose proof (query_pages_settles env answer fixed fuel databaseId None [] w Hend)
    as Hq.
  unfold createIssueMapping, getIssuesAlreadyInNotion. unfold_monad.
  cbn beta iota zeta.
  destruct (query_pages env fuel databaseId None [] w) as [tr [pages|e|] w1];
    cbn in Hq |- *; [| discriminate | congruence].
  pose proof (page_entries_settles pages) as Hp.
  destruct (page_entries pages) as [res|e|]; cbn; congruence || discriminate.
Qed.
End Builder.

(** C8. Against a fixed ledger (every query is answered by its arguments
    alone, the same on each run) two runs of the mapping builder end the
    same way, from whatever worlds they start, in particular the second
    from where the first stopped: the same requests, and the same result,
    so a mapping returned by one is returned by the other, with the same
    keys and the same page id under every key.  When the pagination is
    over within the fuel, the runs do end. *)
Theorem createIssueMapping_idempotent {W : Type} (env : Env W)
    (answer : QueryArgs -> JsError + QueryDatabaseResponse)
    (fuel : nat) (databaseId : jsstring) (w1 w2 : W) :
  (forall args w, fst (databases_query env args w) = answer args) ->
  let first := createIssueMapping env fuel databaseId w1 in
  let second := createIssueMapping env fuel databaseId w2 in
  let again := createIssueMapping env fuel databaseId (final first) in
  result first = result second
  /\ result first = result again
  /\ requests_of (trace first) = requests_of (trace second)
  /\ (pagination_ends answer databaseId fuel None = true ->
      result first <> Pending)
  /\ (forall m1 m2, result first = Returned m1 -> result second = Returned m2 ->
      dom m1 = dom m2 /\ forall k, m1 !! k = m2 !! k).
Proof.
  intros fixed. cbv zeta.
  destruct (createIssueMapping_oblivious env answer fixed fuel databaseId w1 w2)
    as [Ht Hr].
  destruct (createIssueMapping_oblivious env answer fixed fuel databaseId w1
              (final (createIssueMapping env fuel databaseId w1))) as [_ Hr'].
  repeat split; try assumption.
  - now rewrite Ht.
  - now apply (createIssueMapping_settles env answer fixed).
  - rewrite Hr in H. rewrite H in H0. now injection H0 as ->.
  - rewrite Hr in H. rewrite H in H0. now injection H0 as ->.
Qed.

Lemma createIssueMapping_idempotent_witness :
  let env := Sample.counting [Sample.empty_number_row] in
  let first := createIssueMapping env 3 (lit "db-1") 0%nat in
  let second := createIssueMapping env 3 (lit "db-1") 7%nat in
  let again := createIssueMapping env 3 (lit "db-1") (final first) in
  result first = result second
  /\ result first = result again
  /\ requests_of (trace first) = requests_of (trace second)
  /\ (pagination_ends
        (fun _ => inr {| results := [Sample.empty_number_row];
                         next_cursor := None |})
        (lit "db-1") 3 None = true ->
      result first <> Pending)
  /\ (forall m1 m2, result first = Returned m1 -> result second = Returned m2 ->
      dom m1 = dom m2 /\ forall k, m1 !! k = m2 !! k).
Proof.
  apply (createIssueMapping_idempotent
           (Sample.counting [Sample.empty_number_row])
           (fun _ => inr {| results := [Sample.empty_number_row];
                            next_cursor := None |})
           3 (lit "db-1") 0%nat 7%nat).
  intros args w. reflexivity.
Defined.

(** ** Rich-text converter: headings *)


(** Passing over the rest of a match: the scan resumes after it, with the
    last code unit of the match as the one before. *)
Lemma replace_from_skip (m : matcher) (a b : jsstring) (prev : option N) :
  replace_from m (List.length a) prev (a ++ b)
  = replace_from m O (match a with [] => prev | _ :: _ => Some (List.last a 0) end) b.
Proof.
  revert prev; induction a as [|c a IH]; intros prev; [reflexivity|].
  cbn [List.length app replace_from]. rewrite IH.
  destruct a; reflexivity.
Qed.

(** An expression that only matches at its first code unit [c] leaves a
    text without [c] as it is. *)
Lemma replace_from_untouched (m : matcher) (c : N) :
  (forall prev s, (forall tl, s <> c :: tl) -> m prev s = None) ->
  forall s prev, ~ In c s -> replace_from m O prev s = s.
Proof.
  intros Hm s; induction s as [|x s IH]; intros prev Hnot; [reflexivity|].
  cbn [replace_from]. rewrite Hm.
  - f_equal. apply IH. intros Hin. apply Hnot. now right.
  - intros tl [= -> _]. apply Hnot. now left.
Qed.

Lemma re_comment_first (prev : option N) (s : jsstring) :
  (forall tl, s <> Ch.lt :: tl) -> re_comment prev s = None.
Proof.
  intros Hs. unfold re_comment. destruct s as [|x s]; [reflexivity|].
  change (lit "<!--") with [60; 33; 45; 45]. cbn [is_prefix].
  destruct (N.eqb_spec 60 x) as [<-|]; [|reflexivity].
  now destruct (Hs s).
Qed.

Lemma re_image_first (prev : option N) (s : jsstring) :
  (forall tl, s <> Ch.bang :: tl) -> re_image prev s = None.
Proof.
  intros Hs. unfold re_image. destruct s as [|x s]; [reflexivity|].
  change (lit "![") with [33; 91]. cbn [is_prefix].
  destruct (N.eqb_spec 33 x) as [<-|]; [|reflexivity].
  now destruct (Hs s).
Qed.


Lemma skipn_length_app {A} (a b : list A) :
  skipn (List.length a) (a ++ b) = b.
Proof. induction a; [reflexivity | assumption]. Qed.



Lemma is_prefix_In (p s : jsstring) (x : N) :
  is_prefix p s = true -> In x p -> In x s.
Proof.
  revert s; induction p as [|a p IH]; intros s Hp Hin; [easy|].
  destruct s as [|b s]; [discriminate|]. cbn in Hp.
  apply andb_prop in Hp as [Hab Hp]. apply N.eqb_eq in Hab as <-.
  destruct Hin as [<-|Hin]; [now left | right; now apply IH].
Qed.

Lemma index_of_sub_In (p s : jsstring) (x : N) (i : nat) :
  index_of_sub p s = Some i -> In x p -> In x s.
Proof.
  revert i; induction s as [|b s IH]; intros i Hi Hin.
  - cbn in Hi. destruct (is_prefix p []) eqn:Hp; [|discriminate].
    now apply (is_prefix_In p []).
  - cbn [index_of_sub] in Hi. destruct (is_prefix p (b :: s)) eqn:Hp.
    + now apply (is_prefix_In p).
    + destruct (index_of_sub p s) as [j|]; [|discriminate].
      right. now apply (IH j).
Qed.

(** ** The end-to-end cases of the specification, and of the repository's
    tests *)

(** An entry with two blocks and a new body of one block: the first block
    is updated, nothing is appended, the second block is deleted. *)
Example plan_two_blocks_to_one (new : Block) :
  blockPlan [new] [ {| block_id := lit "block0" |}; {| block_id := lit "block1" |} ]
  = {| toUpdate := [(lit "block0", new)]; toAppend := [];
       toDelete := [lit "block1"] |}.
Proof. reflexivity. Qed.

(** Three missing issues, the creation of the second fails: all three
    requests are issued, the first and the third task succeed, and the
    pass raises with the reason of the second. *)
Example three_missing_one_fails :
  let issues := [Sample.an_issue 1 "a"; Sample.an_issue 2 "b"; Sample.an_issue 3 "c"] in
  let r := createPages Sample.one_span (Sample.failing_for 2) (lit "db-1")
             (getIssuesNotInNotion ∅ issues) tt in
  created_numbers (trace r) = [1; 2; 3]%Z
  /\ settles (trace r)
     = [(1, None); (2, Some (ExternalError (lit "validation_error"))); (3, None)]%Z
  /\ result r
     = Thrown (ErrCreatePagesFailed (ExternalError (lit "validation_error"))).
Proof. vm_compute. repeat split. Qed.

(** Issue 1 is mapped, issue 2 is not, number 3 is a pull request: the
    reconciliation creates one entry, for issue 2, and ends well. *)
Example mapped_unmapped_and_pull_request :
  let source := [Sample.an_issue 1 "a"; Sample.an_issue 2 "b";
                 Sample.a_pull_request 3] in
  let r := syncNotionDBWithGitHub Sample.one_span (Sample.with_source source) 5
             {[ Some 1%Z := lit "page-1" ]} (lit "db-1")
             (lit "oakestra/oakestra") tt in
  created_numbers (trace r) = [2%Z] /\ result r = Returned tt.
Proof. vm_compute. repeat split. Qed.

(** With every project lookup answered, the create-entry requests are
    those of the absent issues. *)
Example absent_issues_are_requested :
  creates_exactly_missing Sample.one_span (Sample.world [] true true)
    (lit "db-1") {[ Some 2%Z := lit "page-2" ]}
    [Sample.an_issue 1 "a"; Sample.an_issue 2 "b"; Sample.an_issue 3 "c"] tt.
Proof. vm_compute. reflexivity. Qed.

(** Rows with a number are indexed by it; the later of two rows with the
    same number wins. *)
Example numbered_rows_are_indexed :
  result (createIssueMapping
            (Sample.world [Sample.numbered_row "page-5" 5;
                           Sample.numbered_row "page-7" 7;
                           Sample.numbered_row "page-5b" 5] true true)
            3 (lit "db-1") tt)
  = Returned {[ Some 5%Z := lit "page-5b"; Some 7%Z := lit "page-7" ]}.
Proof. vm_compute. reflexivity. Qed.

(** The bodies of the repository's tests: a heading over a line of text,
    and a lone image tag. *)
Example heading_over_text :
  preprocessMarkdown
    (removeHTML (Some (lit "## Short" ++ [Ch.lf] ++ lit "This is some content")))
  = lit "**Short**" ++ [Ch.lf] ++ lit "This is some content".
Proof. reflexivity. Qed.

Example image_tag_is_stripped :
  removeHTML (Some (lit "<img width=1219 height=273 alt=Image src=image.png />"))
  = [].
Proof. reflexivity. Qed.

(** The heading expression reaches over line ends: a lone marker takes the
    next line as its text, markers included. *)
Example lone_marker_takes_next_line :
  preprocessMarkdown (lit "#" ++ [Ch.lf] ++ lit "# foo") = lit "**# foo**".
Proof. reflexivity. Qed.

(** A [closed] event with a configured database is handed to the edited
    handler; with no matching entry the run creates the page and raises. *)
Example closed_event_end_to_end :
  let r := run Sample.one_span (Sample.world [] true true) 5
             (Sample.options_for (Some (lit "db-1")) "issues"
                (Sample.payload_for "closed" (Sample.an_issue 7 "text"))) tt in
  result r = Thrown (TypeErrorUndefined "id")
  /\ List.length (requests_of (trace r)) = 2%nat.
Proof. vm_compute. repeat split. Qed.

(** An edited issue whose entry has two content blocks: the properties
    are updated, the first block takes the new paragraph, the second is
    deleted, and the properties are updated once more (action.ts
    197-207). With no block yet, the paragraph is appended. *)
Example edited_entry_with_two_blocks :
  let payload := Sample.payload_for "edited" (Sample.an_issue 7 "text") in
  let r := handleIssueEdited Sample.one_span
             (Sample.with_entry [ {| block_id := lit "block0" |};
                                  {| block_id := lit "block1" |} ])
             (lit "db-1") payload tt in
  let r' := handleIssueEdited Sample.one_span (Sample.with_entry [])
              (lit "db-1") payload tt in
  List.map Sample.kind_of (requests_of (trace r))
  = [Sample.KQuery; Sample.KUpdatePage; Sample.KListBlocks;
     Sample.KUpdateBlock (lit "block0"); Sample.KDeleteBlock (lit "block1");
     Sample.KUpdatePage]
  /\ result r = Returned tt
  /\ List.map Sample.kind_of (requests_of (trace r'))
     = [Sample.KQuery; Sample.KUpdatePage; Sample.KListBlocks;
        Sample.KAppend 1; Sample.KUpdatePage]
  /\ result r' = Returned tt.
Proof. vm_compute. repeat split. Qed.

(** The fallback of the converter under a parser that throws: the
    tag-stripped text in one plain span, cut to 2000 code units, and
    nothing for a body that is all tags. *)
Example fallback_of_throwing_parser :
  result (parseBodyRichText Sample.throwing (Some (lit "<b>Hi</b> # there")) tt)
  = Returned [RText (lit "Hi # there") None plain_annotations]
  /\ result (parseBodyRichText Sample.throwing (Some (lit "<br/>")) tt)
     = Returned []
  /\ result (parseBodyRichText Sample.throwing (Some (repeat 97%N 2500)) tt)
     = Returned [RText (repeat 97%N 2000) None plain_annotations].
Proof. vm_compute. repeat split. Qed.

(** * Further properties of the code *)

(** ** [removeHTML] and [preprocessMarkdown] *)

Lemma drop_while_head {A} (p : A -> bool) (s : list A) :
  match drop_while p s with [] => True | c :: _ => p c = false end.
Proof.
  induction s as [|c s IH]; cbn; [exact I|].
  destruct (p c) eqn:Hc; [exact IH | exact Hc].
Qed.

Lemma take_drop_while {A} (p : A -> bool) (s : list A) :
  s = take_while p s ++ drop_while p s.
Proof.
  induction s as [|c s IH]; cbn; [reflexivity|].
  destruct (p c); cbn; [now f_equal | reflexivity].
Qed.

Lemma take_while_all {A} (p : A -> bool) (s : list A) :
  forallb p (take_while p s) = true.
Proof.
  induction s as [|c s IH]; cbn; [reflexivity|].
  destruct (p c) eqn:Hc; cbn; [now rewrite Hc | reflexivity].
Qed.

(** X1. The text [removeHTML] returns neither starts nor ends with white
    space, whatever the argument. *)
Theorem removeHTML_trimmed (text : option jsstring) :
  match removeHTML text with [] => True | c :: _ => is_space c = false end
  /\ match rev (removeHTML text) with [] => True | c :: _ => is_space c = false end.
Proof.
  assert (Htrim : forall s,
             match trim s with [] => True | c :: _ => is_space c = false end
             /\ match rev (trim s) with [] => True | c :: _ => is_space c = false end).
  { intros s. unfold trim. rewrite rev_involutive. split; [|apply drop_while_head].
    set (u := drop_while is_space s).
    pose proof (drop_while_head is_space s) as Hu. fold u in Hu.
    pose proof (take_drop_while is_space (rev u)) as Hsplit.
    destruct (drop_while is_space (rev u)) as [|d ds] eqn:Hd; [exact I|].
    apply (f_equal (@rev N)) in Hsplit. rewrite rev_involutive, rev_app_distr in Hsplit.
    destruct (rev (d :: ds)) as [|c cs] eqn:Hr.
    - apply (f_equal (@List.length N)) in Hr. rewrite List.length_rev in Hr.
      discriminate Hr.
    - rewrite Hsplit in Hu. exact Hu. }
  unfold removeHTML. destruct text as [[|c s]|]; try (split; exact I).
  apply Htrim.
Qed.

Lemma re_tag_first (prev : option N) (s : jsstring) :
  (forall tl, s <> Ch.lt :: tl) -> re_tag prev s = None.
Proof.
  intros Hs. unfold re_tag. destruct s as [|x [|c s]]; try reflexivity.
  destruct (N.eqb_spec x Ch.lt) as [->|]; [|reflexivity].
  now destruct (Hs (c :: s)).
Qed.

Lemma index_where_none {A} (p : A -> bool) (s : list A) :
  (forall x, In x s -> p x = false) -> index_where p s = None.
Proof.
  induction s as [|c s IH]; intros Hall; cbn; [reflexivity|].
  rewrite (Hall c) by now left. rewrite IH; [reflexivity|].
  intros x Hx. apply Hall. now right.
Qed.

Lemma index_where_some {A} (p : A -> bool) (s : list A) (i : nat) :
  index_where p s = Some i ->
  exists x, nth_error s i = Some x /\ p x = true
            /\ forallb (fun y => negb (p y)) (firstn i s) = true.
Proof.
  revert i; induction s as [|c s IH]; intros i; cbn; [discriminate|].
  destruct (p c) eqn:Hc.
  - intros [= <-]. exists c. auto.
  - destruct (index_where p s) as [j|]; [|discriminate].
    intros [= <-]. destruct (IH j eq_refl) as (x & Hx & Hp & Hall).
    exists x. cbn. rewrite Hc. auto.
Qed.

(** Where the tag expression does not match, the text has the shape
    [tag_free] asks for at that place. *)
Lemma re_tag_none (prev : option N) (tl : jsstring) :
  re_tag prev (Ch.lt :: tl) = None -> head tl = Some Ch.gt \/ ~ In Ch.gt tl.
Proof.
  unfold re_tag. destruct tl as [|c tl]; [intros _; right; intros []|].
  change (Ch.lt =? Ch.lt) with true. cbn [andb].
  destruct (N.eqb_spec c Ch.gt) as [->|Hc]; [now left|]. cbn [negb].
  destruct (index_where (N.eqb Ch.gt) tl) as [i|] eqn:Hi; [discriminate|].
  intros _. right. intros [Heq|Hin]; [congruence|].
  assert (Hex : exists j, index_where (N.eqb Ch.gt) tl = Some j).
  { clear Hi. induction tl as [|d tl IH]; [destruct Hin|]. cbn [index_where].
    destruct (N.eqb_spec Ch.gt d) as [|Hd]; [eauto|].
    destruct Hin as [Heq|Hin]; [now destruct Hd|].
    destruct (IH Hin) as [j ->]. eauto. }
  destruct Hex as [j Hj]. congruence.
Qed.

Lemma re_tag_free (prev : option N) (s : jsstring) :
  tag_free s -> re_tag prev s = None.
Proof.
  destruct s as [|x tl]; [reflexivity|]. intros [Hx _].
  destruct (N.eq_dec x Ch.lt) as [->|Hne].
  - unfold re_tag. destruct tl as [|c tl]; [reflexivity|].
    change (Ch.lt =? Ch.lt) with true. cbn [andb].
    destruct (Hx eq_refl) as [[= ->]|Hno]; [reflexivity|].
    destruct (N.eqb_spec c Ch.gt) as [->|Hc]; [reflexivity|]. cbn [negb].
    rewrite index_where_none; [reflexivity|].
    intros y Hy. apply N.eqb_neq. intros <-. apply Hno. now right.
  - apply re_tag_first. intros tl' [= -> _]. congruence.
Qed.

Lemma tag_free_skipn (n : nat) (s : jsstring) : tag_free s -> tag_free (skipn n s).
Proof.
  revert s; induction n as [|n IH]; intros [|c s]; cbn; auto.
  intros [_ Hs]. now apply IH.
Qed.

(** What the tag step emits comes from the text. *)
Lemma re_tag_emits_nothing (prev : option N) (s : jsstring) (n : nat)
    (rep : jsstring) :
  re_tag prev s = Some (n, rep) -> rep = [].
Proof.
  unfold re_tag. destruct s as [|x [|c s]]; try discriminate.
  destruct (_ && _); [|discriminate].
  destruct (index_where _ _); [|discriminate]. now intros [= _ <-].
Qed.

Lemma replace_tag_in (x : N) (s : jsstring) (k : nat) (prev : option N) :
  In x (replace_from re_tag k prev s) -> In x s.
Proof.
  revert k prev; induction s as [|c s IH]; intros k prev; [easy|].
  cbn [replace_from]. destruct k as [|k].
  - destruct (re_tag prev (c :: s)) as [[[|n] rep]|] eqn:Hm.
    + intros [<-|Hin]; [now left | right; eauto].
    + apply re_tag_emits_nothing in Hm as ->. cbn. right. eauto.
    + intros [<-|Hin]; [now left | right; eauto].
  - right. eauto.
Qed.

Lemma replace_tag_head (s : jsstring) (prev : option N) :
  head s = Some Ch.gt -> head (replace_from re_tag O prev s) = Some Ch.gt.
Proof.
  destruct s as [|c s]; [discriminate|]. intros [= ->].
  cbn [replace_from]. rewrite re_tag_first; [reflexivity|].
  intros tl [=].
Qed.

Lemma replace_tag_free (s : jsstring) (k : nat) (prev : option N) :
  tag_free (replace_from re_tag k prev s).
Proof.
  revert k prev; induction s as [|c s IH]; intros k prev; [exact I|].
  cbn [replace_from]. destruct k as [|k]; [|apply IH].
  destruct (re_tag prev (c :: s)) as [[[|n] rep]|] eqn:Hm.
  - exfalso. revert Hm. unfold re_tag. destruct s as [|d s]; [discriminate|].
    destruct (_ && _); [|discriminate].
    destruct (index_where _ _) as [i|]; [|discriminate].
    intros [= Hi]. lia.
  - apply re_tag_emits_nothing in Hm as ->. apply IH.
  - split; [|apply IH]. intros ->.
    destruct (re_tag_none prev s Hm) as [Hgt|Hno].
    + left. now apply replace_tag_head.
    + right. intros Hin. apply Hno. now apply replace_tag_in in Hin.
Qed.

Lemma space_not_angle (c : N) : is_space c = true -> c <> Ch.lt /\ c <> Ch.gt.
Proof. intros Hc. split; intros ->; discriminate Hc. Qed.

Lemma thinned_refl (s : jsstring) : thinned s s.
Proof. induction s; constructor; assumption. Qed.

Lemma thinned_trans (s1 s2 s3 : jsstring) :
  thinned s1 s2 -> thinned s2 s3 -> thinned s1 s3.
Proof.
  intros H12; revert s3; induction H12; intros s3 H23.
  - exact H23.
  - inversion H23; subst; constructor; auto.
  - constructor; auto.
Qed.

Lemma thinned_spaces_front (ws s : jsstring) :
  forallb is_space ws = true -> thinned (ws ++ s) s.
Proof.
  induction ws as [|c ws IH]; cbn; intros Hws; [apply thinned_refl|].
  apply andb_prop in Hws as [Hc Hws].
  destruct (space_not_angle c Hc). constructor; auto.
Qed.

Lemma thinned_spaces_back (s ws : jsstring) :
  forallb is_space ws = true -> thinned (s ++ ws) s.
Proof.
  intros Hws. induction s as [|c s IH]; cbn.
  - rewrite <- (app_nil_r ws). now apply thinned_spaces_front.
  - now constructor.
Qed.

Lemma thinned_not_in (x : N) (s s' : jsstring) :
  thinned s s' -> ~ In x s -> ~ In x s'.
Proof.
  induction 1; cbn; intros Hno; [easy| |]; intuition.
Qed.

Lemma thinned_head_gt (s s' : jsstring) :
  thinned s s' -> head s = Some Ch.gt -> head s' = Some Ch.gt.
Proof.
  destruct 1; cbn; [easy | easy |]. intros [= ->]. congruence.
Qed.

Lemma tag_free_thinned (s s' : jsstring) :
  thinned s s' -> tag_free s -> tag_free s'.
Proof.
  induction 1 as [|c s s' Hth IH|c s s' Hlt Hgt Hth IH]; cbn.
  - easy.
  - intros [Hc Hs]. split; [|auto]. intros Heq.
    destruct (Hc Heq) as [Hhead|Hno].
    + left. now apply (thinned_head_gt s).
    + right. now apply (thinned_not_in _ s).
  - intros [_ Hs]. auto.
Qed.

Lemma trim_thinned (s : jsstring) : thinned s (trim s).
Proof.
  unfold trim.
  apply (thinned_trans _ (drop_while is_space s)).
  - rewrite (take_drop_while is_space s) at 1.
    apply thinned_spaces_front, take_while_all.
  - set (u := drop_while is_space s).
    pose proof (take_drop_while is_space (rev u)) as Hsplit.
    apply (f_equal (@rev N)) in Hsplit.
    rewrite rev_involutive, rev_app_distr in Hsplit.
    rewrite Hsplit at 1. apply thinned_spaces_back.
    rewrite forallb_forall. intros x Hx. apply in_rev in Hx.
    revert x Hx. apply forallb_forall, take_while_all.
Qed.

Lemma last_index_where_lt {A} (p : A -> bool) (s : list A) (i : nat) :
  last_index_where p s = Some i -> (i < List.length s)%nat.
Proof.
  revert i; induction s as [|c s IH]; intros i; cbn; [discriminate|].
  destruct (last_index_where p s) as [j|].
  - intros [= <-]. specialize (IH j eq_refl). lia.
  - destruct (p c); [|discriminate]. intros [= <-]. lia.
Qed.

Lemma firstn_take_while {A} (p : A -> bool) (s : list A) (n : nat) :
  (n <= List.length (take_while p s))%nat -> forallb p (firstn n s) = true.
Proof.
  revert n; induction s as [|c s IH]; intros [|n]; cbn; try reflexivity.
  destruct (p c) eqn:Hc; cbn; [|lia]. intros Hn. apply IH. lia.
Qed.

Lemma re_blank_lines_match (prev : option N) (c : N) (s : jsstring)
    (n : nat) (rep : jsstring) :
  re_blank_lines prev (c :: s) = Some (S n, rep) ->
  rep = [c] /\ forallb is_space (firstn n s) = true.
Proof.
  unfold re_blank_lines. destruct (N.eqb_spec c Ch.lf) as [->|]; [|discriminate].
  destruct (last_index_where _ _) as [i|] eqn:Hi; [|discriminate].
  intros [= Hn <-]. split; [reflexivity|].
  apply last_index_where_lt in Hi. apply firstn_take_while. lia.
Qed.

Lemma replace_blank_thinned (s : jsstring) (k : nat) (prev : option N) :
  forallb is_space (firstn k s) = true ->
  thinned s (replace_from re_blank_lines k prev s).
Proof.
  revert k prev; induction s as [|c s IH]; intros k prev Hk.
  - destruct k; constructor.
  - cbn [replace_from]. destruct k as [|k].
    + destruct (re_blank_lines prev (c :: s)) as [[[|n] rep]|] eqn:Hm.
      * constructor. now apply IH.
      * apply re_blank_lines_match in Hm as [-> Hn]. cbn [app].
        constructor. now apply IH.
      * constructor. now apply IH.
    + cbn in Hk. apply andb_prop in Hk as [Hc Hk].
      destruct (space_not_angle c Hc). constructor; auto.
Qed.

Lemma removeHTML_tag_free (text : option jsstring) : tag_free (removeHTML text).
Proof.
  unfold removeHTML. destruct text as [[|c s]|]; try exact I.
  eapply tag_free_thinned; [apply trim_thinned|].
  eapply tag_free_thinned; [now apply replace_blank_thinned|].
  apply replace_tag_free.
Qed.

(** X2. No tag is left in what [removeHTML] returns: at no place of the
    returned text does the tag expression of [removeHTML] match. *)
Theorem removeHTML_leaves_no_tag (text : option jsstring) (n : nat)
    (prev : option N) :
  re_tag prev (skipn n (removeHTML text)) = None.
Proof. apply re_tag_free, tag_free_skipn, removeHTML_tag_free. Qed.

(** An expression that matches at no place of a text leaves it as it is. *)
Lemma replace_from_no_match (m : matcher) (s : jsstring) (prev : option N) :
  (forall n p, m p (skipn n s) = None) -> replace_from m O prev s = s.
Proof.
  revert prev; induction s as [|c s IH]; intros prev Hm; [reflexivity|].
  cbn [replace_from]. rewrite (Hm O prev : m prev (c :: s) = None).
  f_equal. apply IH. intros n p. apply (Hm (S n) p).
Qed.

Lemma re_comment_free (prev : option N) (s : jsstring) :
  tag_free s -> re_comment prev s = None.
Proof.
  intros Hfree. unfold re_comment.
  destruct (is_prefix (lit "<!--") s) eqn:Hp; [|reflexivity].
  change (lit "<!--") with [60; 33; 45; 45] in Hp.
  destruct s as [|a [|b [|c [|d tl]]]]; cbn [is_prefix] in Hp;
    rewrite ?andb_false_r in Hp; try discriminate Hp.
  apply andb_prop in Hp as [Ha Hp]. apply andb_prop in Hp as [Hb _].
  apply N.eqb_eq in Ha as <-. apply N.eqb_eq in Hb as <-.
  change (skipn 4 (60 :: 33 :: c :: d :: tl)) with tl.
  destruct (index_of_sub (lit "-->") tl) as [i|] eqn:Hi; [|reflexivity].
  exfalso. destruct Hfree as [Hopen _].
  destruct (Hopen eq_refl) as [Hhead|Hno]; [discriminate Hhead|].
  apply Hno. right. right. right.
  apply (index_of_sub_In (lit "-->") tl Ch.gt i); [exact Hi|].
  right. right. now left.
Qed.

(** X3. After [removeHTML], the comment step of [preprocessMarkdown] finds
    nothing to remove: in [parseBodyRichText] only the heading and the
    image steps change the text. *)
Theorem preprocessMarkdown_after_removeHTML (text : option jsstring) :
  replace_all re_comment (removeHTML text) = removeHTML text
  /\ preprocessMarkdown (removeHTML text)
     = replace_all re_image (replace_all re_heading (removeHTML text)).
Proof.
  assert (Hidle : replace_all re_comment (removeHTML text) = removeHTML text).
  { apply replace_from_no_match. intros n p.
    apply re_comment_free, tag_free_skipn, removeHTML_tag_free. }
  split; [exact Hidle|]. unfold preprocessMarkdown. now rewrite Hidle.
Qed.

(** Before the first place where an expression can match, the text is
    copied. *)
Lemma replace_from_prefix (m : matcher) (c : N) :
  (forall prev s, (forall tl, s <> c :: tl) -> m prev s = None) ->
  forall pre s prev,
    ~ In c pre ->
    replace_from m O prev (pre ++ s)
    = pre ++ replace_from m O
               (match pre with [] => prev | _ :: _ => Some (List.last pre 0) end) s.
Proof.
  intros Hm pre; induction pre as [|x pre IH]; intros s prev Hno; [reflexivity|].
  cbn [app replace_from]. rewrite Hm.
  - f_equal. rewrite IH by (intros Hin; apply Hno; now right).
    destruct pre; reflexivity.
  - intros tl [= -> _]. apply Hno. now left.
Qed.

Lemma index_where_stop {A} (p : A -> bool) (l1 l2 : list A) (x : A) :
  (forall y, In y l1 -> p y = false) -> p x = true ->
  index_where p (l1 ++ x :: l2) = Some (List.length l1).
Proof.
  intros Hl1 Hx. induction l1 as [|a l1 IH]; cbn.
  - now rewrite Hx.
  - rewrite (Hl1 a) by now left. rewrite IH; [reflexivity|].
    intros y Hy. apply Hl1. now right.
Qed.

(** X4. The tag step of [removeHTML] removes a tag and goes on after it:
    text without [<], then [<], a non-empty tag body without [>], and
    [>], gives the text before the tag followed by what the step makes of
    the text after it. *)
Theorem tag_is_removed (prev : option N) (pre inner post : jsstring) (d : N) :
  ~ In Ch.lt pre ->
  d <> Ch.gt ->
  ~ In Ch.gt inner ->
  replace_from re_tag O prev (pre ++ [Ch.lt] ++ (d :: inner) ++ [Ch.gt] ++ post)
  = pre ++ replace_from re_tag O (Some Ch.gt) post.
Proof.
  intros Hpre Hd Hinner.
  rewrite (replace_from_prefix re_tag Ch.lt re_tag_first) by exact Hpre.
  f_equal. cbn [app replace_from].
  assert (Hm : forall p, re_tag p (Ch.lt :: d :: inner ++ Ch.gt :: post)
                         = Some (S (S (List.length inner + 1)), [])).
  { intros p. unfold re_tag. change (Ch.lt =? Ch.lt) with true.
    apply N.eqb_neq in Hd. rewrite Hd. cbn [andb negb].
    rewrite (index_where_stop (N.eqb Ch.gt) inner post Ch.gt).
    - f_equal. f_equal. lia.
    - intros y Hy. apply N.eqb_neq. intros <-. now apply Hinner.
    - reflexivity. }
  rewrite Hm. cbn [app].
  replace (inner ++ Ch.gt :: post) with ((inner ++ [Ch.gt]) ++ post)
    by now rewrite <- app_assoc.
  replace (List.length inner + 1)%nat with (List.length (inner ++ [Ch.gt]))
    by now rewrite List.length_app.
  rewrite replace_from_skip, List.last_last.
  now destruct inner.
Qed.

Lemma tag_is_removed_witness :
  replace_all re_tag (lit "see <img src=x/> here") = lit "see  here".
Proof.
  change (lit "see <img src=x/> here")
    with (lit "see " ++ [Ch.lt] ++ (105 :: lit "mg src=x/") ++ [Ch.gt] ++ lit " here").
  unfold replace_all.
  rewrite (tag_is_removed None (lit "see ") (lit "mg src=x/") (lit " here") 105).
  - reflexivity.
  - vm_compute. intuition discriminate.
  - discriminate.
  - vm_compute. intuition discriminate.
Defined.

(** X5. A [<] that no [>] follows is kept: the tag step of [removeHTML]
    leaves a text without [>] as it is. *)
Theorem unclosed_bracket_is_kept (s : jsstring) :
  ~ In Ch.gt s -> replace_all re_tag s = s.
Proof.
  intros Hno. apply replace_from_no_match. intros n p.
  apply re_tag_free.
  assert (Hfree : forall t : jsstring, ~ In Ch.gt t -> tag_free t).
  { induction t as [|c t IH]; cbn; [easy|]. intros Hc.
    split; [intros _; right; tauto | apply IH; tauto]. }
  apply Hfree. intros Hin. apply Hno.
  rewrite <- (firstn_skipn n s). apply List.in_or_app. now right.
Qed.

Lemma unclosed_bracket_is_kept_witness :
  replace_all re_tag (lit "a < b and c <= d") = lit "a < b and c <= d".
Proof.
  apply unclosed_bracket_is_kept. vm_compute. intuition discriminate.
Defined.

Lemma is_prefix_app (p s : jsstring) : is_prefix p (p ++ s) = true.
Proof.
  induction p as [|a p IH]; cbn; [reflexivity|]. now rewrite N.eqb_refl.
Qed.

(** X6. The image step of [preprocessMarkdown] replaces an image
    reference - an exclamation mark, an alt text in brackets without a
    closing bracket inside, a target in parentheses without a closing
    parenthesis inside - by the alt text followed by [ (image)], drops the
    target, and goes on after the reference. *)
Theorem image_becomes_alt_text (prev : option N) (pre alt url post : jsstring) :
  ~ In Ch.bang pre ->
  ~ In Ch.rbracket alt ->
  ~ In Ch.rparen url ->
  replace_from re_image O prev
    (pre ++ lit "![" ++ alt ++ lit "](" ++ url ++ [Ch.rparen] ++ post)
  = pre ++ alt ++ lit " (image)" ++ replace_from re_image O (Some Ch.rparen) post.
Proof.
  intros Hpre Halt Hurl.
  rewrite (replace_from_prefix re_image Ch.bang re_image_first) by exact Hpre.
  f_equal.
  set (rest := alt ++ lit "](" ++ url ++ [Ch.rparen] ++ post).
  assert (Hm : forall p,
             re_image p (lit "![" ++ rest)
             = Some (S (List.length (91 :: alt ++ lit "](" ++ url ++ [Ch.rparen])),
                     alt ++ lit " (image)")).
  { intros p. unfold re_image. rewrite is_prefix_app.
    change (skipn 2 (lit "![" ++ rest)) with rest. subst rest.
    change (lit "](") with [Ch.rbracket; Ch.lparen]. cbn [app].
    rewrite (index_where_stop (N.eqb Ch.rbracket) alt _ Ch.rbracket);
      [| intros y Hy; apply N.eqb_neq; intros <-; now apply Halt | reflexivity].
    replace (alt ++ Ch.rbracket :: Ch.lparen :: url ++ Ch.rparen :: post)
      with ((alt ++ [Ch.rbracket]) ++ Ch.lparen :: url ++ Ch.rparen :: post)
      by now rewrite <- app_assoc.
    replace (S (List.length alt)) with (List.length (alt ++ [Ch.rbracket]))
      by (rewrite List.length_app; cbn; lia).
    rewrite skipn_length_app.
    change (is_prefix [Ch.lparen] (Ch.lparen :: url ++ Ch.rparen :: post)) with true.
    cbv iota.
    replace (S (List.length (alt ++ [Ch.rbracket])))
      with (List.length ((alt ++ [Ch.rbracket]) ++ [Ch.lparen]))
      by (rewrite !List.length_app; cbn; lia).
    replace ((alt ++ [Ch.rbracket]) ++ Ch.lparen :: url ++ Ch.rparen :: post)
      with (((alt ++ [Ch.rbracket]) ++ [Ch.lparen]) ++ url ++ Ch.rparen :: post)
      by now rewrite <- !app_assoc.
    rewrite skipn_length_app.
    rewrite (index_where_stop (N.eqb Ch.rparen) url post Ch.rparen);
      [| intros y Hy; apply N.eqb_neq; intros <-; now apply Hurl | reflexivity].
    rewrite <- !app_assoc. cbn [app].
    rewrite List.firstn_app, List.firstn_all, Nat.sub_diag. cbn [firstn].
    rewrite app_nil_r. f_equal. f_equal.
    cbn [List.length]. rewrite !List.length_app. cbn [List.length].
    rewrite List.length_app. cbn [List.length]. lia. }
  change (lit "![" ++ rest) with (Ch.bang :: 91 :: rest) in *.
  cbn [replace_from]. rewrite Hm. rewrite <- !app_assoc. f_equal. f_equal.
  cbn [List.length]. subst rest.
  replace (alt ++ lit "](" ++ url ++ [Ch.rparen] ++ post)
    with ((alt ++ lit "](" ++ url ++ [Ch.rparen]) ++ post)
    by now rewrite <- !app_assoc.
  rewrite replace_from_skip.
  replace (alt ++ lit "](" ++ url ++ [Ch.rparen])
    with ((alt ++ lit "](" ++ url) ++ [Ch.rparen])
    by now rewrite <- !app_assoc.
  rewrite List.last_last.
  now destruct ((alt ++ lit "](" ++ url) ++ [Ch.rparen]) eqn:E;
    [apply app_eq_nil in E as [_ [=]]|].
Qed.

Lemma image_becomes_alt_text_witness :
  replace_all re_image (lit "see ![a b](http://x/y.png) now")
  = lit "see a b (image) now".
Proof.
  change (lit "see ![a b](http://x/y.png) now")
    with (lit "see " ++ lit "![" ++ lit "a b" ++ lit "](" ++ lit "http://x/y.png"
          ++ [Ch.rparen] ++ lit " now").
  unfold replace_all.
  rewrite (image_becomes_alt_text None (lit "see ") (lit "a b")
             (lit "http://x/y.png") (lit " now")).
  - reflexivity.
  - vm_compute. intuition discriminate.
  - vm_compute. intuition discriminate.
  - vm_compute. intuition discriminate.
Defined.

Lemma re_heading_first (prev : option N) (s : jsstring) :
  (forall tl, s <> Ch.hash :: tl) -> re_heading prev s = None.
Proof.
  intros Hs. unfold re_heading. destruct (at_line_start prev); [|reflexivity].
  destruct s as [|x s]; [reflexivity|]. cbn [take_while].
  destruct (N.eqb_spec Ch.hash x) as [<-|]; [|reflexivity].
  now destruct (Hs s).
Qed.

(** X7. [preprocessMarkdown] leaves a text without [<], [#] and [!] as it
    is. *)
Theorem preprocessMarkdown_plain_text (text : jsstring) :
  ~ In Ch.lt text -> ~ In Ch.hash text -> ~ In Ch.bang text ->
  preprocessMarkdown text = text.
Proof.
  intros Hlt Hhash Hbang. unfold preprocessMarkdown, replace_all.
  rewrite (replace_from_untouched re_comment Ch.lt re_comment_first) by exact Hlt.
  rewrite (replace_from_untouched re_heading Ch.hash re_heading_first) by exact Hhash.
  now apply (replace_from_untouched re_image Ch.bang re_image_first).
Qed.

Lemma preprocessMarkdown_plain_text_witness :
  preprocessMarkdown (lit "Fix the **scheduler** and `retry`")
  = lit "Fix the **scheduler** and `retry`".
Proof.
  apply preprocessMarkdown_plain_text; vm_compute; intuition discriminate.
Defined.

(** ** Headings, line by line *)










(** ** The mapping and the set difference *)

Lemma find_app_first {A} (f : A -> bool) (l1 l2 : list A) :
  List.find f (l1 ++ l2)
  = match List.find f l1 with Some x => Some x | None => List.find f l2 end.
Proof.
  induction l1 as [|a l1 IH]; cbn; [reflexivity|]. now destruct (f a).
Qed.

Lemma set_all_from (entries : list PageIdAndIssueNumber)
    (m : gmap (option Z) jsstring) (k : option Z) :
  fold_left (fun m e => <[issueNumber e := pageId e]> m) entries m !! k
  = match List.find (fun e => bool_decide (issueNumber e = k)) (rev entries) with
    | Some e => Some (pageId e)
    | None => m !! k
    end.
Proof.
  revert m; induction entries as [|e entries IH]; intros m; [reflexivity|].
  cbn [fold_left rev]. rewrite IH, find_app_first.
  destruct (List.find _ (rev entries)); [reflexivity|].
  cbn [List.find]. case_bool_decide as Hk.
  - subst k. apply lookup_insert_eq.
  - now apply lookup_insert_ne.
Qed.

Lemma set_all_lookup (entries : list PageIdAndIssueNumber) (k : option Z) :
  set_all entries !! k
  = pageId <$> List.find (fun e => bool_decide (issueNumber e = k)) (rev entries).
Proof.
  unfold set_all. rewrite set_all_from.
  destruct (List.find _ _); [reflexivity | apply lookup_empty].
Qed.

Lemma set_all_key (entries : list PageIdAndIssueNumber) (k : option Z) :
  is_Some (set_all entries !! k) <-> exists e, In e entries /\ issueNumber e = k.
Proof.
  rewrite set_all_lookup. split.
  - intros [p Hp]. destruct (List.find _ _) as [e|] eqn:Hf; [|discriminate].
    apply List.find_some in Hf as [Hin Hk]. apply bool_decide_eq_true in Hk.
    exists e. split; [now apply in_rev | exact Hk].
  - intros (e & Hin & Hk).
    destruct (List.find _ _) as [e'|] eqn:Hf; [now eexists|].
    exfalso. apply in_rev in Hin.
    pose proof (List.find_none _ _ Hf e Hin) as Hnone. cbn in Hnone.
    now rewrite bool_decide_eq_true_2 in Hnone.
Qed.

(** X8. In the mapping [createIssueMapping] builds from the ledger entries,
    a key is present exactly when some entry carries it, and the page
    found under a key is that of the last entry carrying it: a later
    entry replaces an earlier one with the same number. *)
Theorem set_all_last_wins (entries : list PageIdAndIssueNumber) :
  (forall k,
     set_all entries !! k
     = pageId <$> List.find (fun e => bool_decide (issueNumber e = k)) (rev entries))
  /\ (forall e, set_all (entries ++ [e]) !! issueNumber e = Some (pageId e))
  /\ (forall k, is_Some (set_all entries !! k)
                <-> exists e, In e entries /\ issueNumber e = k).
Proof.
  split; [apply set_all_lookup|]. split; [|apply set_all_key].
  intros e. rewrite set_all_lookup, rev_app_distr. cbn [rev app List.find].
  now rewrite bool_decide_eq_true_2.
Qed.

Lemma getIssuesNotInNotion_in (issuePageIds : gmap (option Z) jsstring)
    (issues : list Issue) (i : Issue) :
  In i (getIssuesNotInNotion issuePageIds issues)
  <-> In i issues /\ issuePageIds !! Some (number i) = None.
Proof.
  rewrite getIssuesNotInNotion_filter, List.filter_In. unfold map_has.
  destruct (issuePageIds !! Some (number i)); cbn; intuition congruence.
Qed.

(** X9. Builder and set difference together: against the mapping built
    from the ledger entries, [getIssuesNotInNotion] returns an issue of
    the source exactly when no entry carries its number. *)
Theorem missing_iff_no_entry (entries : list PageIdAndIssueNumber)
    (issues : list Issue) (i : Issue) :
  In i (getIssuesNotInNotion (set_all entries) issues)
  <-> In i issues
      /\ ~ exists e, In e entries /\ issueNumber e = Some (number i).
Proof.
  rewrite getIssuesNotInNotion_in.
  rewrite <- (set_all_key entries (Some (number i))), <- eq_None_not_Some.
  reflexivity.
Qed.

(** X10. [getIssuesNotInNotion] returns a subsequence of the source list,
    in the same order, and taking the difference again changes nothing. *)
Theorem getIssuesNotInNotion_subsequence
    (issuePageIds : gmap (option Z) jsstring) (issues : list Issue) :
  sublist (getIssuesNotInNotion issuePageIds issues) issues
  /\ getIssuesNotInNotion issuePageIds (getIssuesNotInNotion issuePageIds issues)
     = getIssuesNotInNotion issuePageIds issues.
Proof.
  split.
  - induction issues as [|i issues IH]; cbn; [constructor|].
    destruct (negb _); [now apply sublist_skip | now apply sublist_cons].
  - induction issues as [|i issues IH]; cbn; [reflexivity|].
    destruct (negb (map_has issuePageIds (number i))) eqn:Hi; cbn;
      [now rewrite Hi, IH | exact IH].
Qed.

(** X11. Once the numbers of the issues a difference returned are keys of
    a larger mapping, the difference against that mapping is empty: a
    second pass after a complete first one has nothing to create. *)
Theorem nothing_missing_after_insertion
    (before after : gmap (option Z) jsstring) (issues : list Issue) :
  before ⊆ after ->
  (forall i, In i (getIssuesNotInNotion before issues) ->
             is_Some (after !! Some (number i))) ->
  getIssuesNotInNotion after issues = [].
Proof.
  intros Hsub Hnew.
  assert (Hall : forall i, In i issues -> map_has after (number i) = true).
  { intros i Hi. unfold map_has.
    destruct (before !! Some (number i)) as [p|] eqn:Hb.
    - now rewrite (lookup_weaken _ _ _ _ Hb Hsub).
    - destruct (Hnew i) as [p ->]; [|reflexivity].
      now apply getIssuesNotInNotion_in. }
  induction issues as [|i issues IH]; [reflexivity|].
  cbn. rewrite (Hall i) by now left. cbn. apply IH.
  - intros j Hj. apply Hnew. cbn.
    destruct (negb (map_has before (number i))); [now right | exact Hj].
  - intros j Hj. apply Hall. now right.
Qed.

Lemma nothing_missing_after_insertion_witness :
  getIssuesNotInNotion
    (<[Some 2%Z := lit "page-2"]> {[ Some 1%Z := lit "page-1" ]})
    [Sample.an_issue 1 "a"; Sample.an_issue 2 "b"]
  = [].
Proof.
  apply (nothing_missing_after_insertion {[ Some 1%Z := lit "page-1" ]}).
  - apply insert_subseteq. reflexivity.
  - intros i Hi. vm_compute in Hi. destruct Hi as [<-|[]].
    vm_compute. eauto.
Defined.

(** ** What the computations emit *)

Section Emits.
Context {W : Type} (P : Event -> bool).

Lemma emits_quiet {A} (o : outcome A) : emits_only P (fun w : W => MkRun [] o w).
Proof. intros w. reflexivity. Qed.

Lemma emits_log (level : LogLevel) (template : string) (args : list LogArg) :
  P (Log level template args) = true -> emits_only P (@log W level template args).
Proof. intros HP w. cbn. now rewrite HP. Qed.

Lemma emits_call {A} (request : Request) (answer : W -> (JsError + A) * W) :
  P (Call request) = true -> emits_only P (call request answer).
Proof. intros HP w. unfold call. destruct (answer w). cbn. now rewrite HP. Qed.

Lemma emits_bind {A B} (m : M W A) (k : A -> M W B) :
  emits_only P m -> (forall a, emits_only P (k a)) -> emits_only P (bind m k).
Proof.
  intros Hm Hk w. unfold bind. specialize (Hm w).
  destruct (m w) as [tr [a|e|] w1]; cbn in *; try exact Hm.
  specialize (Hk a w1). destruct (k a w1) as [tr' o w2]. cbn in *.
  now rewrite forallb_app, Hm, Hk.
Qed.

Lemma emits_try_catch {A} (m : M W A) (h : JsError -> M W A) :
  emits_only P m -> (forall e, emits_only P (h e)) -> emits_only P (try_catch m h).
Proof.
  intros Hm Hh w. unfold try_catch. specialize (Hm w).
  destruct (m w) as [tr [a|e|] w1]; cbn in *; try exact Hm.
  specialize (Hh e w1). destruct (h e w1) as [tr' o w2]. cbn in *.
  now rewrite forallb_app, Hm, Hh.
Qed.

Lemma emits_run_all {A} (tasks : list (M W A)) (w : W) :
  Forall (emits_only P) tasks -> forallb P (run_all tasks w).1.1 = true.
Proof.
  intros Hall; revert w; induction Hall as [|t ts Ht _ IH]; intros w;
    [reflexivity|].
  cbn [run_all]. specialize (Ht w). destruct (t w) as [tr1 o w1].
  specialize (IH w1). destruct (run_all ts w1) as [[tr os] w'].
  cbn in *. now rewrite forallb_app, Ht, IH.
Qed.

Lemma emits_promise_all {A B} (f : B -> M W A) (l : list B) :
  (forall b, emits_only P (f b)) -> emits_only P (promise_all (List.map f l)).
Proof.
  intros Hf w. unfold promise_all.
  pose proof (emits_run_all (List.map f l) w) as Hrun.
  destruct (run_all _ w) as [[tr os] w']. cbn in *. apply Hrun.
  apply Forall_forall. intros t Ht.
  apply list_elem_of_In, List.in_map_iff in Ht as (b & <- & _). apply Hf.
Qed.

Lemma emits_promise_allSettled {A B} (f : B -> M W A) (l : list B) :
  (forall b, emits_only P (f b)) ->
  emits_only P (promise_allSettled (List.map f l)).
Proof.
  intros Hf w. unfold promise_allSettled.
  pose proof (emits_run_all (List.map f l) w) as Hrun.
  destruct (run_all _ w) as [[tr os] w']. cbn in *. apply Hrun.
  apply Forall_forall. intros t Ht.
  apply list_elem_of_In, List.in_map_iff in Ht as (b & <- & _). apply Hf.
Qed.
End Emits.

(** One step through a computation built from the operations of [M]. *)
Ltac emits_step :=
  cbv beta zeta;
  lazymatch goal with
  | |- emits_only _ (bind _ _) => apply emits_bind; [|intros ?]
  | |- emits_only _ (try_catch _ _) => apply emits_try_catch; [|intros ?]
  | |- emits_only _ (log _ _ _) => apply emits_log; reflexivity
  | |- emits_only _ (ret _) => apply emits_quiet
  | |- emits_only _ (throw _) => apply emits_quiet
  | |- emits_only _ pending => apply emits_quiet
  | |- emits_only _ (lift _) => apply emits_quiet
  | |- emits_only _ (promise_all (List.map _ _)) =>
      apply emits_promise_all; intros ?
  | |- emits_only _ (promise_allSettled (List.map _ _)) =>
      apply emits_promise_allSettled; intros ?
  | |- emits_only _ (match ?x with _ => _ end) => destruct x
  end.

Ltac emits := unfold mbind, M_bind, mret, M_ret; repeat emits_step.

Section EmitsProgram.
Context {W : Type} (markdownToRichText : Parser) (env : Env W).

Lemma parseBodyRichText_emits (P : Event -> bool) (body : option jsstring) :
  (forall e, P (Log LWarning "Failed to parse markdown: {}" [AErr e]) = true) ->
  emits_only P (@parseBodyRichText W markdownToRichText body).
Proof.
  intros HP w. rewrite parseBodyRichText_runs.
  destruct (markdownToRichText _); cbn; [now rewrite HP | reflexivity].
Qed.

Lemma query_pages_emits (P : Event -> bool) (fuel : nat) (databaseId : jsstring)
    (cursor : option jsstring) (pages : list PageObject) :
  (forall c, P (Call (DatabasesQuery
                        {| q_database_id := databaseId; q_filter := None;
                           q_start_cursor := c; q_page_size := None |})) = true) ->
  emits_only P (query_pages env fuel databaseId cursor pages).
Proof.
  intros HP. revert cursor pages; induction fuel as [|fuel IH]; intros cursor pages.
  - apply emits_quiet.
  - cbn [query_pages]. unfold mbind, M_bind, mret, M_ret.
    apply emits_bind; [apply emits_call, HP|]. intros response.
    cbv zeta. destruct (truthy _); [apply IH | apply emits_quiet].
Qed.

Lemma list_pages_emits (P : Event -> bool) (fuel : nat)
    (params : ListForRepoParams) (issues : list Issue) :
  (forall p, P (Call (IssuesListForRepo p)) = true) ->
  emits_only P (list_pages env fuel params issues).
Proof.
  intros HP. revert issues; induction fuel as [|fuel IH]; intros issues.
  - apply emits_quiet.
  - cbn [list_pages]. unfold mbind, M_bind, mret, M_ret.
    apply emits_bind; [apply emits_call, HP|]. intros [data more].
    cbv zeta. destruct more; [apply IH | apply emits_quiet].
Qed.
End EmitsProgram.

(** The steps of [emits_step], and the three computations above. *)
Ltac emits_program :=
  unfold mbind, M_bind, mret, M_ret;
  repeat first
    [ apply parseBodyRichText_emits; intros ?; reflexivity
    | apply query_pages_emits; intros ?; cbn;
      rewrite ?bool_decide_eq_true_2 by reflexivity; reflexivity
    | apply list_pages_emits; intros ?; reflexivity
    | match goal with
      | |- emits_only _ (call _ _) =>
          apply emits_call; cbn;
          rewrite ?bool_decide_eq_true_2 by reflexivity; reflexivity
      end
    | emits_step ].

Lemma createIssueMapping_only_queries_lemma {W : Type} (env : Env W)
    (fuel : nat) (databaseId : jsstring) (w : W) :
  forallb (is_plain_query databaseId)
          (trace (createIssueMapping env fuel databaseId w)) = true.
Proof.
  revert w. change (emits_only (is_plain_query databaseId)
                      (createIssueMapping env fuel databaseId)).
  unfold createIssueMapping, getIssuesAlreadyInNotion. emits_program.
Qed.

(** X12. The mapping builder only reads: from whatever world, every
    request of [createIssueMapping] is a query of the given database,
    without filter and without page size. *)
Theorem createIssueMapping_only_queries {W : Type} (env : Env W) (fuel : nat)
    (databaseId : jsstring) (w : W) :
  forallb (is_plain_query databaseId)
          (trace (createIssueMapping env fuel databaseId w)) = true.
Proof. apply createIssueMapping_only_queries_lemma. Qed.

(** X13. A reconciliation pass neither updates nor deletes anything: from
    whatever world, the requests of [syncNotionDBWithGitHub] are listings
    of the source, project lookups, and creations of pages in the given
    database, each without content blocks. *)
Theorem syncNotionDBWithGitHub_only_creates {W : Type}
    (markdownToRichText : Parser) (env : Env W) (fuel : nat)
    (issuePageIds : gmap (option Z) jsstring) (databaseId githubRepo : jsstring)
    (w : W) :
  forallb (is_sync_request databaseId)
          (trace (syncNotionDBWithGitHub markdownToRichText env fuel issuePageIds
                    databaseId githubRepo w)) = true.
Proof.
  revert w. change (emits_only (is_sync_request databaseId)
                      (syncNotionDBWithGitHub markdownToRichText env fuel
                         issuePageIds databaseId githubRepo)).
  unfold syncNotionDBWithGitHub, getGitHubIssues, createPages, createPage,
    getPropertiesFromIssue, createMultiSelectObjects.
  emits_program.
Qed.

(** X14. The two event handlers never turn to the source: from whatever
    world and for whatever payload, [handleIssueOpened] and
    [handleIssueEdited] issue requests to the ledger only. *)
Theorem handlers_keep_to_the_ledger {W : Type} (markdownToRichText : Parser)
    (env : Env W) (databaseId : jsstring) (payload : WebhookPayload) (w : W) :
  forallb is_ledger_event
          (trace (handleIssueOpened markdownToRichText env databaseId payload w))
  = true
  /\ forallb is_ledger_event
             (trace (handleIssueEdited markdownToRichText env databaseId payload w))
     = true.
Proof.
  split; revert w.
  - change (emits_only is_ledger_event
              (handleIssueOpened markdownToRichText env databaseId payload)).
    unfold handleIssueOpened, payload_issue, parsePropertiesFromPayload,
      getBodyChildrenBlocks.
    emits_program.
  - change (emits_only is_ledger_event
              (handleIssueEdited markdownToRichText env databaseId payload)).
    unfold handleIssueEdited, payload_issue, parsePropertiesFromPayload,
      getBodyChildrenBlocks.
    emits_program.
Qed.

Lemma completion_after {W : Type} (m : M W unit) (w : W) :
  emits_only is_not_completion m ->
  let r := bind (log LInfo "Starting..." [])
                (fun _ => bind m (fun _ => log LInfo "Complete!" [])) w in
  match result r with
  | Returned _ =>
      exists before,
        trace r = before ++ [Log LInfo "Complete!" []]
        /\ forallb is_not_completion before = true
  | _ => forallb is_not_completion (trace r) = true
  end.
Proof.
  intros Hm. cbv zeta. unfold bind, log. specialize (Hm w).
  destruct (m w) as [tr [[]|e|] w1]; cbn [trace result final app] in *.
  - exists (Log LInfo "Starting..." [] :: tr). split; [reflexivity|].
    cbn. exact Hm.
  - cbn. exact Hm.
  - cbn. exact Hm.
Qed.

(** X15. [run] logs its completion line exactly when it returns: a run
    that returns has [Complete!] as its last line and nowhere before; a
    run that raises, or whose pagination is still pending, has no such
    line. *)
Theorem run_completion_line {W : Type} (markdownToRichText : Parser)
    (env : Env W) (fuel : nat) (options : Options) (w : W) :
  let r := run markdownToRichText env fuel options w in
  match result r with
  | Returned _ =>
      exists before,
        trace r = before ++ [Log LInfo "Complete!" []]
        /\ forallb is_not_completion before = true
  | _ => forallb is_not_completion (trace r) = true
  end.
Proof.
  unfold run. destruct (notion_databaseId options) as [[|c databaseId]|];
    try reflexivity.
  apply (completion_after _ w).
  unfold handleIssueOpened, handleIssueEdited, payload_issue,
    parsePropertiesFromPayload, getBodyChildrenBlocks, createIssueMapping,
    getIssuesAlreadyInNotion, syncNotionDBWithGitHub, getGitHubIssues,
    createPages, createPage, getPropertiesFromIssue, createMultiSelectObjects.
  emits_program.
Qed.

(** ** Errors on their way out *)

(** [try { m } catch (error) { ...log...; throw error }]: the error is
    the one [m] threw, and the lines of the handler end the trace. *)
Lemma try_catch_rethrow {W A : Type} (m : M W A) (h : JsError -> M W A)
    (lines : JsError -> list Event) (w : W) :
  (forall e w', h e w' = MkRun (lines e) (Thrown e) w') ->
  try_catch m h w
  = match result (m w) with
    | Thrown e => MkRun (trace (m w) ++ lines e) (Thrown e) (final (m w))
    | _ => m w
    end.
Proof.
  intros Hh. unfold try_catch. destruct (m w) as [tr [a|e|] w1]; cbn;
    try reflexivity.
  now rewrite Hh.
Qed.

(** X16. Whatever makes a reconciliation pass fail is logged on the way
    out and raised unchanged: when [syncNotionDBWithGitHub] raises [e],
    the last line of its trace is the [Sync failed] line carrying [e];
    when it returns, the last line is the success line. *)
Theorem syncNotionDBWithGitHub_last_line {W : Type}
    (markdownToRichText : Parser) (env : Env W) (fuel : nat)
    (issuePageIds : gmap (option Z) jsstring) (databaseId githubRepo : jsstring)
    (w : W) :
  let r := syncNotionDBWithGitHub markdownToRichText env fuel issuePageIds
             databaseId githubRepo w in
  match result r with
  | Returned _ =>
      exists before, trace r = before ++ [Log LInfo "Sync completed successfully" []]
  | Thrown e =>
      exists before, trace r = before ++ [Log LError "Sync failed: {}" [AErr e]]
  | Pending => True
  end.
Proof.
  cbv zeta. unfold syncNotionDBWithGitHub.
  rewrite (try_catch_rethrow _ _ (fun e => [Log LError "Sync failed: {}" [AErr e]]))
    by reflexivity.
  match goal with |- context [result (?m w)] => set (body := m) end.
  assert (Hbody : match result (body w) with
                  | Returned _ =>
                      exists before,
                        trace (body w)
                        = before ++ [Log LInfo "Sync completed successfully" []]
                  | _ => True
                  end).
  { subst body. unfold mbind, M_bind, bind, log.
    destruct (getGitHubIssues env fuel githubRepo w) as [tr1 [issues|e|] w1];
      cbn [trace result]; try exact I.
    destruct (createPages _ _ _ _ w1) as [tr2 [[]|e|] w2];
      cbn [trace result]; try exact I.
    eexists. rewrite !app_assoc. reflexivity. }
  destruct (body w) as [tr [a|e|] w1]; cbn [trace result] in *;
    [exact Hbody | now eexists | exact I].
Qed.

(** X17. A page of the ledger that cannot be fetched aborts the build of
    the mapping: when the pagination raises [e], [createIssueMapping]
    raises [e] too - no mapping is returned for the pages fetched
    before - after logging the failure and the database id. *)
Theorem createIssueMapping_aborts {W : Type} (env : Env W) (fuel : nat)
    (databaseId : jsstring) (w : W) (e : JsError) :
  result (query_pages env fuel databaseId None [] w) = Thrown e ->
  let r := createIssueMapping env fuel databaseId w in
  result r = Thrown e
  /\ exists before,
       trace r
       = before ++ [Log LError "Failed to query Notion database: {}" [AErr e];
                    Log LError "Database ID: {}" [AStr databaseId]].
Proof.
  intros Hq.
  assert (Hrun : exists before w',
             createIssueMapping env fuel databaseId w
             = MkRun (before
                      ++ [Log LError "Failed to query Notion database: {}"
                            [AErr e];
                          Log LError "Database ID: {}" [AStr databaseId]])
                     (Thrown e) w').
  { unfold createIssueMapping, getIssuesAlreadyInNotion, mbind, M_bind.
    match goal with |- context [try_catch ?m ?h] =>
      assert (Hinner : try_catch m h w
                       = MkRun (trace (m w)
                                ++ [Log LError "Failed to query Notion database: {}"
                                      [AErr e];
                                    Log LError "Database ID: {}" [AStr databaseId]])
                               (Thrown e) (final (m w)));
      [ rewrite (try_catch_rethrow m h
                   (fun e => [Log LError "Failed to query Notion database: {}"
                                [AErr e];
                              Log LError "Database ID: {}" [AStr databaseId]]))
          by reflexivity;
        assert (Hm : result (m w) = Thrown e)
          by (unfold bind at 1;
              destruct (query_pages env fuel databaseId None [] w) as [tr o w1];
              cbn in Hq; now subst o);
        now rewrite Hm
      | set (body := m) in * ]
    end.
    unfold bind at 1. unfold bind at 1. cbn [log]. rewrite Hinner.
    cbn [app]. eexists _, _. rewrite app_comm_cons. reflexivity. }
  destruct Hrun as (before & w' & Hrun). cbv zeta. rewrite Hrun.
  split; [reflexivity | now exists before].
Qed.

Lemma createIssueMapping_aborts_witness :
  result (createIssueMapping Cases.broken_ledger 3 (lit "db-1") tt)
  = Thrown (ExternalError (lit "502")).
Proof.
  apply (createIssueMapping_aborts Cases.broken_ledger 3 (lit "db-1") tt).
  reflexivity.
Defined.

(** ** The event handlers and [run] *)

Lemma requests_of_app (tr1 tr2 : list Event) :
  requests_of (tr1 ++ tr2) = requests_of tr1 ++ requests_of tr2.
Proof. apply omap_app. Qed.

Lemma requests_of_log (level : LogLevel) (template : string)
    (args : list LogArg) (tr : list Event) :
  requests_of (Log level template args :: tr) = requests_of tr.
Proof. reflexivity. Qed.

Lemma requests_of_call (r : Request) (tr : list Event) :
  requests_of (Call r :: tr) = r :: requests_of tr.
Proof. reflexivity. Qed.

Lemma parseBodyRichText_spans {W : Type} (markdownToRichText : Parser)
    (body : option jsstring) (w : W) :
  exists warning,
    parseBodyRichText markdownToRichText body w
    = MkRun warning (Returned (spans_of markdownToRichText body)) w
    /\ requests_of warning = [].
Proof.
  rewrite parseBodyRichText_runs. unfold spans_of.
  destruct (markdownToRichText _); eexists; split; reflexivity.
Qed.

(** X18. The opened handler issues one request: the creation of a page in
    the given database whose [Body] property and whose single paragraph
    block both hold the converted body; the handler ends as that request
    does.  For a payload without an issue it raises before any request. *)
Theorem handleIssueOpened_one_request {W : Type} (markdownToRichText : Parser)
    (env : Env W) (databaseId : jsstring) (payload : WebhookPayload) (w : W) :
  let r := handleIssueOpened markdownToRichText env databaseId payload w in
  match issue payload with
  | None => r = MkRun [] (Thrown (TypeErrorUndefined "number")) w
  | Some i =>
      let spans := spans_of markdownToRichText (body i) in
      let props := [ ("Name", P_title (title i));
                     ("Status", P_statusSelectOption (state i));
                     ("Body", P_richText spans);
                     ("Assignees", P_multiSelect (assignees i));
                     ("Reviewer", P_multiSelect []);
                     ("Link", P_url (html_url i)) ]%string in
      let answer := pages_create env databaseId props (Some [Paragraph spans]) w in
      requests_of (trace r) = [PagesCreate databaseId props (Some [Paragraph spans])]
      /\ result r = settled answer.1
      /\ final r = answer.2
  end.
Proof.
  cbv zeta. unfold handleIssueOpened, payload_issue.
  destruct (issue payload) as [i|]; [|reflexivity].
  unfold parsePropertiesFromPayload, getBodyChildrenBlocks, mbind, M_bind, mret,
    M_ret, bind, ret, log, call.
  destruct (parseBodyRichText_spans markdownToRichText (body i) w)
    as (warning & Hparse & Hquiet).
  rewrite Hparse. cbn beta iota zeta. rewrite Hparse. cbn beta iota zeta.
  destruct (pages_create env databaseId _ _ w) as [o w1].
  cbn [trace result final fst snd].
  rewrite !requests_of_app, Hquiet. repeat split.
Qed.

(** X19. In the edited handler, a failed update of the properties of the
    entry found stops the handler: it raises that error, and has listed,
    updated, appended and deleted no content block. *)
Theorem handleIssueEdited_update_failure {W : Type}
    (markdownToRichText : Parser) (env : Env W) (databaseId : jsstring)
    (payload : WebhookPayload) (i : Issue) (w w1 : W)
    (response : QueryDatabaseResponse) (first : PageObject)
    (rest : list PageObject) (e : JsError) :
  issue payload = Some i ->
  databases_query env
    {| q_database_id := databaseId; q_filter := Some (FilterIDEquals (id i));
       q_start_cursor := None; q_page_size := Some 1%nat |} w
  = (inr response, w1) ->
  results response = first :: rest ->
  (forall props, (pages_update env (page_id first) props w1).1 = inl e) ->
  let r := handleIssueEdited markdownToRichText env databaseId payload w in
  result r = Thrown e
  /\ List.map Sample.kind_of (requests_of (trace r))
     = [Sample.KQuery; Sample.KUpdatePage].
Proof.
  intros Hissue Hquery Hfound Hupdate. cbv zeta.
  unfold handleIssueEdited, payload_issue, getBodyChildrenBlocks,
    parsePropertiesFromPayload.
  rewrite Hissue. unfold_monad.
  cbn beta iota zeta. rewrite Hquery. cbn beta iota zeta.
  destruct (parseBodyRichText_spans markdownToRichText (body i) w1)
    as (warning & Hparse & Hquiet).
  rewrite !Hparse. cbn beta iota zeta. rewrite Hfound. cbn beta iota zeta.
  rewrite !Hparse. cbn beta iota zeta.
  match goal with |- context [pages_update env ?p ?props w1] =>
    pose proof (Hupdate props) as Hup;
    destruct (pages_update env p props w1) as [o w2] end.
  cbn in Hup. subst o. cbn [trace result final settled app].
  split; [reflexivity|].
  repeat first [rewrite requests_of_app | rewrite requests_of_log
               | rewrite requests_of_call | rewrite Hquiet].
  reflexivity.
Qed.

Lemma handleIssueEdited_update_failure_witness :
  result (handleIssueEdited Sample.one_span Cases.read_only_ledger (lit "db-1")
            (Sample.payload_for "edited" (Sample.an_issue 7 "text")) tt)
  = Thrown (ExternalError (lit "403")).
Proof.
  apply (handleIssueEdited_update_failure Sample.one_span Cases.read_only_ledger
           (lit "db-1") _ (Sample.an_issue 7 "text") tt tt
           {| results := [ {| page_id := lit "page-1"; page_properties := None |} ];
              next_cursor := None |}
           {| page_id := lit "page-1"; page_properties := None |} []);
    reflexivity.
Defined.

(** X20. In [run] the action [opened] comes first: with a configured
    database id, a payload whose action is [opened] goes to the opened
    handler whatever the event name is, [workflow_dispatch] included. *)
Theorem run_opened_comes_first {W : Type} (markdownToRichText : Parser)
    (env : Env W) (fuel : nat) (options : Options) (w : W)
    (c : N) (databaseId : jsstring) :
  notion_databaseId options = Some (c :: databaseId) ->
  action (github_payload options) = Some (lit "opened") ->
  run markdownToRichText env fuel options w
  = (log LInfo "Starting..." [];;
     handleIssueOpened markdownToRichText env (c :: databaseId)
       (github_payload options);;
     log LInfo "Complete!" []) w.
Proof.
  intros Hdb Hact. unfold run. rewrite Hdb.
  now rewrite (bool_decide_eq_true_2 _ Hact).
Qed.

Lemma run_opened_comes_first_witness :
  requests_of
    (trace (run Sample.one_span (Sample.world [] true true) 5
              (Sample.options_for (Some (lit "db-1")) "workflow_dispatch"
                 (Sample.payload_for "opened" (Sample.an_issue 7 "text"))) tt))
  = requests_of
      (trace (handleIssueOpened Sample.one_span (Sample.world [] true true)
                (lit "db-1")
                (Sample.payload_for "opened" (Sample.an_issue 7 "text")) tt)).
Proof.
  rewrite (run_opened_comes_first Sample.one_span (Sample.world [] true true) 5
             _ tt 100%N (lit "b-1")); reflexivity.
Defined.

(** ** The source listing and the properties of a listed issue *)

Lemma list_pages_shape {W : Type} (env : Env W) (fuel : nat)
    (params : ListForRepoParams) (issues : list Issue) (w : W) :
  forallb (fun i => negb (pull_request i)) issues = true ->
  let r := list_pages env fuel params issues w in
  match result r with
  | Returned listed => forallb (fun i => negb (pull_request i)) listed = true
  | _ => True
  end
  /\ exists k, (k <= fuel)%nat
               /\ requests_of (trace r) = repeat (IssuesListForRepo params) k.
Proof.
  revert issues w; induction fuel as [|fuel IH]; intros issues w Hacc.
  - split; [exact I|]. exists O. split; [lia | reflexivity].
  - cbn [list_pages]. unfold mbind, M_bind, mret, M_ret, bind, call, ret.
    destruct (issues_listForRepo env params w) as [[e|[data more]] w1];
      cbn [settled trace result final].
    + split; [exact I|]. exists 1%nat. split; [lia | reflexivity].
    + assert (Hacc' : forallb (fun i => negb (pull_request i))
                        (issues ++ List.filter (fun i => negb (pull_request i)) data)
                      = true).
      { rewrite forallb_app, Hacc. cbn. apply forallb_forall.
        intros i Hi. now apply List.filter_In in Hi. }
      destruct more.
      * destruct (IH _ w1 Hacc') as (Hres & k & Hk & Hreq).
        destruct (list_pages env fuel params _ w1) as [tr o w2].
        cbn [trace result] in *. split; [exact Hres|].
        exists (S k). split; [lia|]. cbn [app repeat].
        now rewrite requests_of_call, Hreq.
      * cbn. split; [exact Hacc'|]. exists 1%nat. split; [lia | reflexivity].
Qed.

(** X21. [getGitHubIssues] never returns a pull request, and every request
    it makes of the page iterator carries the same parameters: the owner
    and the repository that the two first segments of the repository name
    give, state [all] and a hundred issues a page. *)
Theorem getGitHubIssues_pages {W : Type} (env : Env W) (fuel : nat)
    (githubRepo : jsstring) (w : W) :
  let r := getGitHubIssues env fuel githubRepo w in
  let parts := split_on Ch.slash githubRepo in
  match result r with
  | Returned listed => forallb (fun i => negb (pull_request i)) listed = true
  | _ => True
  end
  /\ exists k, (k <= fuel)%nat
               /\ requests_of (trace r)
                  = repeat (IssuesListForRepo
                              {| l_owner := nth_error parts 0;
                                 l_repo := nth_error parts 1;
                                 l_state := lit "all"; l_per_page := 100 |}) k.
Proof.
  cbv zeta. unfold getGitHubIssues, mbind, M_bind, bind, log.
  cbn beta iota zeta.
  destruct (list_pages_shape env fuel
              {| l_owner := nth_error (split_on Ch.slash githubRepo) 0;
                 l_repo := nth_error (split_on Ch.slash githubRepo) 1;
                 l_state := lit "all"; l_per_page := 100 |} [] w eq_refl)
    as (Hres & k & Hk & Hreq).
  destruct (list_pages env fuel _ [] w) as [tr o w1].
  cbn [trace result app] in *. split; [exact Hres|].
  exists k. split; [exact Hk|]. now rewrite requests_of_log.
Qed.

Lemma split_on_whole (sep : N) (s : jsstring) :
  ~ In sep s -> split_on sep s = [s].
Proof.
  induction s as [|c s IH]; cbn; [reflexivity|]. intros Hno.
  destruct (N.eqb_spec c sep) as [->|]; [tauto|].
  rewrite IH; [reflexivity | tauto].
Qed.

Lemma split_on_nonempty (sep : N) (s : jsstring) : split_on sep s <> [].
Proof.
  induction s as [|c s IH]; cbn; [discriminate|].
  destruct (c =? sep); [discriminate|].
  destruct (split_on sep s); discriminate.
Qed.

Lemma split_on_last_segment (sep : N) (a b : jsstring) :
  ~ In sep b -> split_on sep (a ++ sep :: b) = split_on sep a ++ [b].
Proof.
  intros Hb. induction a as [|c a IH]; cbn [app split_on].
  - rewrite N.eqb_refl. now rewrite split_on_whole.
  - destruct (c =? sep); rewrite IH; [reflexivity|].
    pose proof (split_on_nonempty sep a) as Hne.
    destruct (split_on sep a); [congruence | reflexivity].
Qed.

Lemma last_two_segments {A} (front : list A) (x y : A) :
  let l := front ++ [x; y] in
  let n := List.length l in
  (if (2 <=? n)%nat then nth_error l (n - 2) else None) = Some x
  /\ (if (1 <=? n)%nat then nth_error l (n - 1) else None) = Some y.
Proof.
  cbv zeta. rewrite List.length_app. cbn [List.length].
  replace (2 <=? List.length front + 2)%nat with true
    by (symmetry; apply Nat.leb_le; lia).
  replace (1 <=? List.length front + 2)%nat with true
    by (symmetry; apply Nat.leb_le; lia).
  split; rewrite List.nth_error_app2 by lia.
  - now replace (List.length front + 2 - 2 - List.length front)%nat with O by lia.
  - now replace (List.length front + 2 - 1 - List.length front)%nat with 1%nat by lia.
Qed.

(** X22. For an issue whose [repository_url] ends in [/org/repo],
    [getPropertiesFromIssue] looks the project up under [org/repo] before
    anything else and, when it returns, gives sixteen properties, among
    them [Organization] = [org], [Repository] = [repo], [Number] = the
    issue number and [ID] = the issue id. *)
Theorem getPropertiesFromIssue_repository {W : Type}
    (markdownToRichText : Parser) (env : Env W) (issue : Issue) (w : W)
    (front org repo : jsstring) :
  repository_url issue = front ++ Ch.slash :: org ++ Ch.slash :: repo ->
  ~ In Ch.slash org ->
  ~ In Ch.slash repo ->
  let r := getPropertiesFromIssue markdownToRichText env issue w in
  (exists tail,
     trace r
     = Call (GetProjectData (org ++ [Ch.slash] ++ repo) (number issue)) :: tail)
  /\ match result r with
     | Returned props =>
         property_of "Organization" props = Some (P_text (Some org))
         /\ property_of "Repository" props = Some (P_text (Some repo))
         /\ property_of "Number" props = Some (P_number (number issue))
         /\ property_of "ID" props = Some (P_number (id issue))
         /\ List.length props = 16%nat
     | _ => True
     end.
Proof.
  intros Hurl Horg Hrepo. cbv zeta.
  unfold getPropertiesFromIssue, createMultiSelectObjects.
  assert (Hparts : split_on Ch.slash (repository_url issue)
                   = split_on Ch.slash front ++ [org; repo]).
  { rewrite Hurl.
    replace (front ++ Ch.slash :: org ++ Ch.slash :: repo)
      with ((front ++ Ch.slash :: org) ++ Ch.slash :: repo)
      by now rewrite <- app_assoc.
    rewrite (split_on_last_segment _ _ repo Hrepo).
    rewrite (split_on_last_segment _ _ org Horg).
    now rewrite <- app_assoc. }
  rewrite Hparts.
  destruct (last_two_segments (split_on Ch.slash front) org repo) as [H2 H1].
  cbv zeta in H2, H1. cbv zeta. rewrite H2, H1.
  unfold_monad. cbn beta iota zeta. cbn [interpolate].
  destruct (getProjectData env _ (number issue) w) as [[e|pd] w1];
    cbn [trace result final].
  - split; [now eexists | exact I].
  - destruct (parseBodyRichText_spans markdownToRichText
                (Some (or_empty (body issue))) w1) as (warning & -> & _).
    cbn [trace result final]. split; [now eexists|]. repeat split.
Qed.

Lemma getPropertiesFromIssue_repository_witness :
  exists tail,
    trace (getPropertiesFromIssue Sample.one_span (Sample.world [] true true)
             (Sample.an_issue 7 "text") tt)
    = Call (GetProjectData (lit "oakestra/oakestra") 7) :: tail.
Proof.
  apply (getPropertiesFromIssue_repository Sample.one_span
           (Sample.world [] true true) (Sample.an_issue 7 "text") tt
           (lit "https://api.github.com/repos") (lit "oakestra") (lit "oakestra")).
  - reflexivity.
  - vm_compute. intuition discriminate.
  - vm_compute. intuition discriminate.
Defined.

(** ** Edges of the pagination and of the pass *)

(** X23. A page without a further cursor ends the pagination of the
    ledger, and so does one whose cursor is the empty string: the loop
    returns the results gathered so far followed by those of that page,
    after this one request. *)
Theorem query_pages_last_page {W : Type} (env : Env W) (fuel : nat)
    (databaseId : jsstring) (cursor : option jsstring)
    (pages : list PageObject) (w w1 : W) (response : QueryDatabaseResponse) :
  databases_query env
    {| q_database_id := databaseId; q_filter := None;
       q_start_cursor := cursor; q_page_size := None |} w
  = (inr response, w1) ->
  next_cursor response = None \/ next_cursor response = Some [] ->
  query_pages env (S fuel) databaseId cursor pages w
  = MkRun [Call (DatabasesQuery
                   {| q_database_id := databaseId; q_filter := None;
                      q_start_cursor := cursor; q_page_size := None |})]
          (Returned (pages ++ results response)) w1.
Proof.
  intros Hquery Hlast. cbn [query_pages]. unfold_monad. rewrite Hquery.
  cbn beta iota zeta. now destruct Hlast as [-> | ->].
Qed.

Lemma query_pages_last_page_witness :
  result (query_pages (Sample.world [Sample.numbered_row "page-5" 5] true true)
            1 (lit "db-1") None [] tt)
  = Returned [Sample.numbered_row "page-5" 5].
Proof.
  rewrite (query_pages_last_page
             (Sample.world [Sample.numbered_row "page-5" 5] true true)
             0 (lit "db-1") None [] tt tt
             {| results := [Sample.numbered_row "page-5" 5]; next_cursor := None |});
    [reflexivity | reflexivity | now left].
Defined.

Lemma getIssuesNotInNotion_all_mapped (issuePageIds : gmap (option Z) jsstring)
    (issues : list Issue) :
  Forall (fun i => is_Some (issuePageIds !! Some (number i))) issues ->
  getIssuesNotInNotion issuePageIds issues = [].
Proof.
  induction 1 as [|i issues [p Hp] _ IH]; [reflexivity|].
  cbn. unfold map_has. now rewrite Hp.
Qed.

Lemma created_numbers_none (tr : list Event) :
  forallb is_not_creation tr = true -> created_numbers tr = [].
Proof.
  induction tr as [|ev tr IH]; [reflexivity|]. cbn [forallb].
  intros H. apply andb_prop in H as [Hev Htr].
  change (ev :: tr) with ([ev] ++ tr). rewrite created_numbers_app, IH by auto.
  destruct ev as [|[]]; try discriminate Hev; reflexivity.
Qed.

(** X24. A pass over a source whose issues are all in the mapping creates
    nothing: when the listing returns issues whose numbers are all keys of
    the mapping, [syncNotionDBWithGitHub] returns, and its requests are
    those of the listing alone, with no project lookup and no creation. *)
Theorem syncNotionDBWithGitHub_nothing_to_do {W : Type}
    (markdownToRichText : Parser) (env : Env W) (fuel : nat)
    (issuePageIds : gmap (option Z) jsstring) (databaseId githubRepo : jsstring)
    (w : W) (issues : list Issue) :
  result (getGitHubIssues env fuel githubRepo w) = Returned issues ->
  Forall (fun i => is_Some (issuePageIds !! Some (number i))) issues ->
  let r := syncNotionDBWithGitHub markdownToRichText env fuel issuePageIds
             databaseId githubRepo w in
  result r = Returned tt
  /\ requests_of (trace r)
     = requests_of (trace (getGitHubIssues env fuel githubRepo w))
  /\ created_numbers (trace r) = [].
Proof.
  intros Hlist Hmapped.
  assert (Hrun : exists w',
             syncNotionDBWithGitHub markdownToRichText env fuel issuePageIds
               databaseId githubRepo w
             = MkRun
                 ([Log LInfo "Starting sync for repository: {}" [AStr githubRepo]]
                  ++ trace (getGitHubIssues env fuel githubRepo w)
                  ++ [Log LInfo "Found {} total issues in GitHub"
                        [ACount (List.length issues)];
                      Log LInfo "{} issues need to be added to Notion" [ACount 0];
                      Log LInfo "Adding Github Issues to Notion..." [];
                      Log LInfo "Creating {} pages in Notion database" [ACount 0];
                      Log LInfo "No new issues to add to Notion" [];
                      Log LInfo "Sync completed successfully" []])
                 (Returned tt) w').
  { unfold syncNotionDBWithGitHub. unfold_monad.
    destruct (getGitHubIssues env fuel githubRepo w) as [tr o w1].
    cbn in Hlist. subst o. cbn beta iota zeta.
    rewrite (getIssuesNotInNotion_all_mapped _ _ Hmapped).
    unfold createPages. unfold_monad. cbn. eexists. reflexivity. }
  destruct Hrun as [w' Hrun]. cbv zeta. rewrite Hrun. cbn [trace result].
  split; [reflexivity|]. split.
  - rewrite !requests_of_app. cbn. now rewrite app_nil_r.
  - apply created_numbers_none.
    cbn [app forallb is_not_creation andb]. rewrite forallb_app.
    apply andb_true_intro. split; [|reflexivity].
    unfold getGitHubIssues, mbind, M_bind.
    apply (emits_bind _ _ _ (emits_log _ _ _ _ eq_refl)).
    intros _. apply list_pages_emits. reflexivity.
Qed.

Lemma syncNotionDBWithGitHub_nothing_to_do_witness :
  let r := syncNotionDBWithGitHub Sample.one_span
             (Sample.with_source [Sample.an_issue 1 "a"; Sample.a_pull_request 3])
             5 {[ Some 1%Z := lit "page-1" ]} (lit "db-1")
             (lit "oakestra/oakestra") tt in
  result r = Returned tt /\ created_numbers (trace r) = [].
Proof.
  destruct (syncNotionDBWithGitHub_nothing_to_do Sample.one_span
              (Sample.with_source [Sample.an_issue 1 "a"; Sample.a_pull_request 3])
              5 {[ Some 1%Z := lit "page-1" ]} (lit "db-1")
              (lit "oakestra/oakestra") tt [Sample.an_issue 1 "a"])
    as (Hres & _ & Hnone).
  - reflexivity.
  - constructor; [|constructor]. vm_compute. eauto.
  - cbv zeta. split; assumption.
Defined.

(** X25. The body of an issue always becomes one paragraph block, so an
    edit rewrites the first content block of the entry, appends the
    paragraph only to an entry without blocks, and deletes every block
    after the first. *)
Theorem edit_keeps_one_block {W : Type} (markdownToRichText : Parser)
    (body : option jsstring) (w : W) (existing : list BlockObject) :
  let b := Paragraph (spans_of markdownToRichText body) in
  result (getBodyChildrenBlocks markdownToRichText body w) = Returned [b]
  /\ blockPlan [b] existing
     = {| toUpdate := match existing with
                      | [] => []
                      | e :: _ => [(block_id e, b)]
                      end;
          toAppend := match existing with [] => [b] | _ :: _ => [] end;
          toDelete := List.map block_id (List.tl existing) |}.
Proof.
  cbv zeta. split.
  - unfold getBodyChildrenBlocks. unfold_monad.
    destruct (parseBodyRichText_spans markdownToRichText body w)
      as (warning & -> & _). reflexivity.
  - destruct existing as [|e [|e' es]]; reflexivity.
Qed.

(** X26. In a manual reconciliation the repository name is looked at only
    after the mapping has been built: with a configured database, event
    [workflow_dispatch], an action other than [opened] and no repository
    name in the payload, a run whose mapping builder returns raises the
    missing-name error, logs it, and has issued queries of the ledger and
    nothing else. *)
Theorem run_without_repository_name {W : Type} (markdownToRichText : Parser)
    (env : Env W) (fuel : nat) (options : Options) (w : W)
    (c : N) (databaseId : jsstring) (issuePageIds : gmap (option Z) jsstring) :
  notion_databaseId options = Some (c :: databaseId) ->
  action (github_payload options) <> Some (lit "opened") ->
  github_eventName options = lit "workflow_dispatch" ->
  or_empty (default None (repository (github_payload options))) = [] ->
  result (createIssueMapping env fuel (c :: databaseId) w) = Returned issuePageIds ->
  let r := run markdownToRichText env fuel options w in
  result r = Thrown ErrNoRepositoryName
  /\ forallb (is_plain_query (c :: databaseId)) (trace r) = true
  /\ In (Log LError "Workflow dispatch sync failed: {}" [AErr ErrNoRepositoryName])
        (trace r).
Proof.
  intros Hdb Hact Hev Hrepo Hmap.
  pose proof (createIssueMapping_only_queries_lemma env fuel (c :: databaseId) w)
    as Hq.
  assert (Hrun : exists w',
             run markdownToRichText env fuel options w
             = MkRun ([Log LInfo "Starting..." [];
                       Log LInfo "Using Notion database ID: {}"
                         [AStr (c :: databaseId)]]
                      ++ trace (createIssueMapping env fuel (c :: databaseId) w)
                      ++ [Log LError "Workflow dispatch sync failed: {}"
                            [AErr ErrNoRepositoryName]])
                     (Thrown ErrNoRepositoryName) w').
  { unfold run. rewrite Hdb, (bool_decide_eq_false_2 _ Hact),
      (bool_decide_eq_true_2 _ Hev).
    unfold_monad.
    destruct (createIssueMapping env fuel (c :: databaseId) w) as [tr o w1].
    cbn in Hmap. subst o. cbn beta iota zeta.
    destruct (repository (github_payload options)) as [[[|x name]|]|];
      try discriminate Hrepo; cbn; rewrite ?app_nil_r; eexists; reflexivity. }
  destruct Hrun as [w' Hrun]. cbv zeta. rewrite Hrun. cbn [trace result].
  split; [reflexivity|]. split.
  - cbn [app forallb is_plain_query andb]. rewrite forallb_app.
    rewrite Hq. reflexivity.
  - cbn [app]. do 2 right. apply List.in_or_app. right. now left.
Qed.

Lemma run_without_repository_name_witness :
  result (run Sample.one_span (Sample.world [] true true) 5
            (Sample.options_for (Some (lit "db-1")) "workflow_dispatch"
               {| action := None; issue := None; repository := None |}) tt)
  = Thrown ErrNoRepositoryName.
Proof.
  apply (run_without_repository_name Sample.one_span (Sample.world [] true true) 5
           _ tt 100%N (lit "b-1") ∅).
  - reflexivity.
  - discriminate.
  - reflexivity.
  - reflexivity.
  - vm_compute. reflexivity.
Defined.
